(** * A mysql-backed session store: model of [pkg/services/session/mysql.go]

    The Go file implements two types.  [MysqlStore] is the in-memory view of
    one session (a key/value map, the expiry last seen in the row and a dirty
    flag); [MysqlProvider] owns the database handle and manages the rows of
    the [session] table.

    The embedding is shallow.  Everything outside the file (the database
    server, the wall clock, the log, [sql.Open]) is gathered in a [World]
    record that the operations thread through a small state monad whose
    outcomes are either a normal return or a Go panic.  Go's [(T, error)]
    results are pairs whose second component is an [option error]
    ([None] is Go's [nil] error). *)

From Stdlib Require Import ZArith.
From Stdlib.Strings Require Import Byte.
From stdpp Require Import gmap strings list fin_maps.

Local Open Scope string_scope.
Local Open Scope list_scope.
Local Open Scope Z_scope.

(** ** Machine integers *)

(** Go's [int64] is modelled as [Z]; additions wrap around. *)
Definition wrap64 (z : Z) : Z := (z + 2 ^ 63) mod 2 ^ 64 - 2 ^ 63.
Definition add64 (a b : Z) : Z := wrap64 (a + b).
Definition mul64 (a b : Z) : Z := wrap64 (a * b).
Definition int64_range (z : Z) : Prop := - 2 ^ 63 <= z < 2 ^ 63.

(** [time.Second], in nanoseconds. *)
Definition time_Second : Z := 1000000000.

(** ** Errors *)

(** The error values that flow through the file: the sentinel
    [sql.ErrNoRows] (compared with [==] in the source), errors reported by
    the driver or the server, errors of the gob codec, and errors built with
    [fmt.Errorf]. *)
Inductive error : Type :=
| ErrNoRows
| DriverError (msg : string)
| GobError (msg : string)
| Errorf (msg : string).

Global Instance error_eq_dec : EqDecision error.
Proof. solve_decision. Defined.

(** [err.Error()] *)
Definition Error (e : error) : string :=
  match e with
  | ErrNoRows => "sql: no rows in result set"
  | DriverError msg => msg
  | GobError msg => msg
  | Errorf msg => msg
  end.

(** ** The session table *)

Abbreviation Blob := (list byte).

(** Modelled from the spec: the schema of the [session] table is not part of
    the file.  The spec's data model gives one row per session identifier
    with columns [key] (unique, primary key), [data] (blob) and [expiry]
    (integer unix seconds); a table is therefore a finite map from keys to
    the two other columns. *)
Record Row : Type := mkRow { row_data : Blob; row_expiry : Z }.

(** The eight SQL statements of the file, with their bound parameters in the
    order of the placeholders. *)
Inductive Stmt : Type :=
| UPDATE_data_expiry (data : Blob) (expiry : Z) (key : string)
    (* UPDATE session SET data=?, expiry=? WHERE `key`=? *)
| SELECT_data_expiry (key : string)
    (* SELECT data,expiry FROM session WHERE `key`=? *)
| INSERT_row (key : string) (data : Blob) (expiry : Z)
    (* INSERT INTO session(`key`,data,expiry) VALUES(?,?,?) *)
| SELECT_data (key : string)
    (* SELECT data FROM session WHERE `key`=? *)
| DELETE_key (key : string)
    (* DELETE FROM session WHERE `key`=? *)
| UPDATE_key (newkey oldkey : string)
    (* UPDATE session SET `key`=? WHERE `key`=? *)
| SELECT_COUNT
    (* SELECT COUNT( * ) AS NUM FROM session *)
| DELETE_expired (expire : Z)
    (* DELETE FROM session WHERE  expiry + ? <= UNIX_TIMESTAMP(NOW()) *).

(** The columns a query hands to [Scan]. *)
Inductive Cols : Type :=
| cols_data_expiry (data : Blob) (expiry : Z)
| cols_data (data : Blob)
| cols_count (total : Z).

(** The server's reply to a statement that violates the primary key. *)
Definition duplicate_entry (key : string) : error :=
  DriverError ("Error 1062: Duplicate entry '" +:+ key +:+ "' for key 'PRIMARY'").

(** A row is swept by the expiry statement when [expiry + ? <= now] holds on
    the server, which computes the sum without wrap-around. *)
Definition expired (expire now : Z) (r : Row) : bool :=
  row_expiry r + expire <=? now.

(** Effect of a data-modifying statement on the table, evaluated on a server
    whose [UNIX_TIMESTAMP(NOW())] is [now].  An [UPDATE] or [DELETE] that
    matches no row succeeds and changes nothing. *)
Definition exec_stmt (q : Stmt) (now : Z) (t : gmap string Row)
  : error + gmap string Row :=
  match q with
  | UPDATE_data_expiry d e k =>
      inr (match t !! k with
           | Some _ => <[k := mkRow d e]> t
           | None => t
           end)
  | INSERT_row k d e =>
      match t !! k with
      | Some _ => inl (duplicate_entry k)
      | None => inr (<[k := mkRow d e]> t)
      end
  | DELETE_key k => inr (delete k t)
  | UPDATE_key newk oldk =>
      match t !! oldk with
      | None => inr t
      | Some r =>
          if decide (newk = oldk) then inr t
          else match t !! newk with
               | Some _ => inl (duplicate_entry newk)
               | None => inr (<[newk := r]> (delete oldk t))
               end
      end
  | DELETE_expired expire =>
      inr (filter (λ kr, expired expire now kr.2 = false) t)
  | SELECT_data_expiry _ | SELECT_data _ | SELECT_COUNT => inr t
  end.

(** First row of the result set of a query; [None] when it is empty. *)
Definition query_stmt (q : Stmt) (t : gmap string Row) : option Cols :=
  match q with
  | SELECT_data_expiry k =>
      (λ r, cols_data_expiry (row_data r) (row_expiry r)) <$> t !! k
  | SELECT_data k => (λ r, cols_data (row_data r)) <$> t !! k
  | SELECT_COUNT => Some (cols_count (Z.of_nat (size t)))
  | _ => None
  end.

(** ** The world outside the file *)

(** A [*sql.DB] is a pointer; [None] is the nil pointer.  There is one
    database object, whose pool configuration lives in the world. *)
Inductive sql_DB : Type := session_db.
Abbreviation DB_ptr := (option sql_DB).

Record World : Type := mkWorld {
  (** rows of the [session] table on the server *)
  table : gmap string Row;
  (** the server's [UNIX_TIMESTAMP(NOW())] *)
  unix_timestamp : Z;
  (** what happens to the coming database calls, in order: [Some msg] makes
      the call fail with a driver error and leaves the table alone, [None]
      lets the server run it; once the list is used up calls run normally *)
  faults : list (option string);
  (** every statement handed to the database so far, oldest first *)
  trace : list Stmt;
  (** readings of [time.Now().Unix()], and how many were taken *)
  clock : nat → Z;
  reads : nat;
  (** lines written with [log.Printf], oldest first *)
  logs : list string;
  (** what [sql.Open] answers for a driver name and a connection string *)
  sql_Open_result : string → string → DB_ptr * option error;
  (** the pool's maximum connection lifetime *)
  connMaxLifetime : Z
}.

Definition set_table (t : gmap string Row) (w : World) : World :=
  mkWorld t (unix_timestamp w) (faults w) (trace w) (clock w) (reads w)
          (logs w) (sql_Open_result w) (connMaxLifetime w).
Definition set_faults (fs : list (option string)) (w : World) : World :=
  mkWorld (table w) (unix_timestamp w) fs (trace w) (clock w) (reads w)
          (logs w) (sql_Open_result w) (connMaxLifetime w).
Definition add_trace (q : Stmt) (w : World) : World :=
  mkWorld (table w) (unix_timestamp w) (faults w) (trace w ++ [q]) (clock w)
          (reads w) (logs w) (sql_Open_result w) (connMaxLifetime w).
Definition tick (w : World) : World :=
  mkWorld (table w) (unix_timestamp w) (faults w) (trace w) (clock w)
          (S (reads w)) (logs w) (sql_Open_result w) (connMaxLifetime w).
Definition add_log (line : string) (w : World) : World :=
  mkWorld (table w) (unix_timestamp w) (faults w) (trace w) (clock w)
          (reads w) (logs w ++ [line]) (sql_Open_result w) (connMaxLifetime w).
Definition set_connMaxLifetime (d : Z) (w : World) : World :=
  mkWorld (table w) (unix_timestamp w) (faults w) (trace w) (clock w)
          (reads w) (logs w) (sql_Open_result w) d.

(** The current unix time, as the next call of [time.Now().Unix()] reads it. *)
Definition now (w : World) : Z := clock w (reads w).

(** ** The monad of operations *)

Inductive Outcome (A : Type) : Type :=
| Returned (a : A) (w : World)
| Panicked (msg : string) (w : World).
Arguments Returned {A} a w.
Arguments Panicked {A} msg w.

(** The value an operation returned, if it did, and the world it left. *)
Definition result {A} (o : Outcome A) : option A :=
  match o with
  | Returned a _ => Some a
  | Panicked _ _ => None
  end.

Definition final {A} (o : Outcome A) : World :=
  match o with
  | Returned _ w | Panicked _ w => w
  end.

Definition M (A : Type) : Type := World → Outcome A.

Global Instance M_ret : MRet M := λ A a w, Returned a w.
Global Instance M_bind : MBind M := λ A B f m w,
  match m w with
  | Returned a w' => f a w'
  | Panicked msg w' => Panicked msg w'
  end.

Definition panic {A} (msg : string) : M A := λ w, Panicked msg w.

Definition nil_dereference : string :=
  "runtime error: invalid memory address or nil pointer dereference".

(** [time.Now().Unix()] *)
Definition time_Now_Unix : M Z := λ w, Returned (now w) (tick w).

(** [log.Printf] with the line already formatted. *)
Definition log_Printf (line : string) : M unit :=
  λ w, Returned tt (add_log line w).

(** The fate of the [i]-th database call from now on. *)
Definition fault_at (i : nat) (w : World) : option string :=
  default None (faults w !! i).

(** The world once statement [q] has been handed to the database: the
    statement joins the trace and one entry of the fault list is used up. *)
Definition sent (q : Stmt) (w : World) : World :=
  set_faults (tail (faults w)) (add_trace q w).

(** [db.Exec(query, args...)], result value dropped as in every call of the
    file.  Calling it through a nil handle panics. *)
Definition Exec (db : DB_ptr) (q : Stmt) : M (option error) :=
  match db with
  | None => panic nil_dereference
  | Some _ => λ w,
      match fault_at 0 w with
      | Some msg => Returned (Some (DriverError msg)) (sent q w)
      | None =>
          match exec_stmt q (unix_timestamp w) (table w) with
          | inl e => Returned (Some e) (sent q w)
          | inr t' => Returned None (set_table t' (sent q w))
          end
      end
  end.

(** [db.QueryRow(query, args...).Scan(...)]: the scanned columns when there is
    a row, [sql.ErrNoRows] when there is none, the driver's error when the
    query fails. *)
Definition QueryRow_Scan (db : DB_ptr) (q : Stmt) : M (option Cols * option error) :=
  match db with
  | None => panic nil_dereference
  | Some _ => λ w,
      match fault_at 0 w with
      | Some msg => Returned (None, Some (DriverError msg)) (sent q w)
      | None =>
          match query_stmt q (table w) with
          | None => Returned (None, Some ErrNoRows) (sent q w)
          | Some cs => Returned (Some cs, None) (sent q w)
          end
      end
  end.

(** [db.Ping()] *)
Definition Ping (db : DB_ptr) : M (option error) :=
  match db with
  | None => panic nil_dereference
  | Some _ => λ w,
      Returned (DriverError <$> fault_at 0 w) (set_faults (tail (faults w)) w)
  end.

(** [db.SetConnMaxLifetime(d)]: a negative duration counts as zero; the
    method takes the pool's lock first, so a nil handle panics. *)
Definition SetConnMaxLifetime (db : DB_ptr) (d : Z) : M unit :=
  match db with
  | None => panic nil_dereference
  | Some _ => λ w, Returned tt (set_connMaxLifetime (Z.max 0 d) w)
  end.

(** [sql.Open(driverName, dataSourceName)] *)
Definition sql_Open (driver connStr : string) : M (DB_ptr * option error) :=
  λ w, Returned (sql_Open_result w driver connStr) w.

(** ** The store and the provider *)

Section Session.

(** Go's [interface{}], the type of the keys and of the values of a
    session, with its nil value [nil_iface].  Equality of the type is
    identity of values.  Go's own [==] on interface values is identity too,
    but for two kinds of values that a map treats apart: a value whose
    dynamic type cannot be hashed (a slice, a map, a function, or a struct or
    array holding one), for which every map operation panics, and a value
    that is not equal to itself (a floating-point NaN, or a struct or array
    holding one), which a map stores but never finds again. *)
Context {iface : Type} `{Countable iface}.
Variable nil_iface : iface.
Variable hashable : iface → bool.
Variable self_equal : iface → bool.
Variable type_name : iface → string.

(** Go's [map[interface{}]interface{}]: the nil map, or a table.  The
    entries of a table whose key is equal to itself are a finite map; the
    entries stored under a key that is not equal to itself are kept apart,
    one for every assignment: no lookup, assignment or [delete] reaches
    them, but they are part of the table and of what is encoded. *)
Inductive GoMap : Type :=
| NilMap
| Map (entries : gmap iface iface) (orphans : list (iface * iface)).

(** [make(map[interface{}]interface{})] *)
Global Instance GoMap_empty : Empty GoMap := Map ∅ [].

Definition unhashable (key : iface) : string :=
  "runtime error: hash of unhashable type " +:+ type_name key.

Definition nil_map_assignment : string := "assignment to entry in nil map".

(** [m[key]]: the runtime checks the key even when the map is nil or
    empty. *)
Definition mapaccess (m : GoMap) (key : iface) : string + iface :=
  if hashable key then
    inr (match m with
         | NilMap => nil_iface
         | Map entries _ =>
             if self_equal key then default nil_iface (entries !! key)
             else nil_iface
         end)
  else inl (unhashable key).

(** [m[key] = val]: the nil map is refused before the key is looked at. *)
Definition mapassign (m : GoMap) (key val : iface) : string + GoMap :=
  match m with
  | NilMap => inl nil_map_assignment
  | Map entries orphans =>
      if hashable key then
        inr (if self_equal key then Map (<[key := val]> entries) orphans
             else Map entries (orphans ++ [(key, val)]))
      else inl (unhashable key)
  end.

(** [delete(m, key)] *)
Definition mapdelete (m : GoMap) (key : iface) : string + GoMap :=
  if hashable key then
    inr (match m with
         | NilMap => NilMap
         | Map entries orphans =>
             if self_equal key then Map (delete key entries) orphans
             else Map entries orphans
         end)
  else inl (unhashable key).


(** A step that either panics with a message or yields a value. *)
Definition run {A} (r : string + A) : M A :=
  match r with
  | inl msg => panic msg
  | inr a => mret a
  end.

(** [session.EncodeGob] and [session.DecodeGob] belong to the session
    framework; they are parameters of the development.  [EncodeGob]
    registers the type of every key and value with gob before it encodes,
    which panics for some values (a nil value among them): its result is a
    panic message or the pair it returns. *)
Variable EncodeGob : GoMap → string + Blob * option error.
Variable DecodeGob : Blob → GoMap * option error.

(** The package variable [sessionConnMaxLifetime] is declared in another
    file of the package. *)
Variable sessionConnMaxLifetime : Z.

(** [MysqlStore]; the lock is left out, operations are modelled one at a
    time.  The receiver is a pointer and is updated in place: an operation
    that writes a field returns the new record, and an operation that
    panics returns none, the store being as it was before the call. *)
Record MysqlStore : Type := mkStore {
  s_c : DB_ptr;
  s_sid : string;
  s_data : GoMap;
  s_expiry : Z;
  s_dirty : bool
}.

Definition NewMysqlStore (c : DB_ptr) (sid : string)
           (kv : GoMap) (expiry : Z) : MysqlStore :=
  mkStore c sid kv expiry false.

Definition MysqlStore_Set (s : MysqlStore) (key val : iface)
  : M (MysqlStore * option error) :=
  data ← run (mapassign (s_data s) key val);
  let s := mkStore (s_c s) (s_sid s) data (s_expiry s) (s_dirty s) in
  let s := mkStore (s_c s) (s_sid s) (s_data s) (s_expiry s) true in
  mret (s, None).

Definition MysqlStore_Get (s : MysqlStore) (key : iface) : M iface :=
  run (mapaccess (s_data s) key).

Definition MysqlStore_Delete (s : MysqlStore) (key : iface)
  : M (MysqlStore * option error) :=
  data ← run (mapdelete (s_data s) key);
  let s := mkStore (s_c s) (s_sid s) data (s_expiry s) (s_dirty s) in
  let s := mkStore (s_c s) (s_sid s) (s_data s) (s_expiry s) true in
  mret (s, None).

Definition MysqlStore_ID (s : MysqlStore) : string := s_sid s.

Definition MysqlStore_Release (s : MysqlStore)
  : M (MysqlStore * option error) :=
  newExpiry ← time_Now_Unix;
  if negb (s_dirty s) && (newExpiry <=? add64 (s_expiry s) 60) then
    mret (s, None)
  else
    '(data, err) ← run (EncodeGob (s_data s));
    match err with
    | Some e => mret (s, Some e)
    | None =>
        err ← Exec (s_c s) (UPDATE_data_expiry data newExpiry (s_sid s));
        let s := mkStore (s_c s) (s_sid s) (s_data s) (s_expiry s) false in
        let s := mkStore (s_c s) (s_sid s) (s_data s) newExpiry (s_dirty s) in
        mret (s, err)
    end.

Definition MysqlStore_Flush (s : MysqlStore) : MysqlStore * option error :=
  let s := mkStore (s_c s) (s_sid s) ∅ (s_expiry s) (s_dirty s) in
  let s := mkStore (s_c s) (s_sid s) (s_data s) (s_expiry s) true in
  (s, None).

Record MysqlProvider : Type := mkProvider {
  p_c : DB_ptr;
  p_expire : Z
}.

Definition MysqlProvider_Init (p : MysqlProvider) (expire : Z)
           (connStr : string) : M (MysqlProvider * option error) :=
  let p := mkProvider (p_c p) expire in
  '(c, err) ← sql_Open "mysql" connStr;
  let p := mkProvider c (p_expire p) in
  _ ← SetConnMaxLifetime (p_c p) (mul64 time_Second sessionConnMaxLifetime);
  match err with
  | Some e => mret (p, Some e)
  | None =>
      err ← Ping (p_c p);
      mret (p, err)
  end.

Definition MysqlProvider_Read (p : MysqlProvider) (sid : string)
  : M (option MysqlStore * option error) :=
  expiry ← time_Now_Unix;
  '(cols, err) ← QueryRow_Scan (p_c p) (SELECT_data_expiry sid);
  let '(data, expiry) :=
    match cols with
    | Some (cols_data_expiry d e) => (d, e)
    | _ => ([] : Blob, expiry)
    end in
  err ← (if decide (err = Some ErrNoRows) then
           Exec (p_c p) (INSERT_row sid [] expiry)
         else mret err);
  match err with
  | Some e => mret (None, Some e)
  | None =>
      if decide (length data = 0%nat) then
        mret (Some (NewMysqlStore (p_c p) sid ∅ expiry), None)
      else
        let '(kv, err) := DecodeGob data in
        match err with
        | Some e => mret (None, Some e)
        | None => mret (Some (NewMysqlStore (p_c p) sid kv expiry), None)
        end
  end.

Definition MysqlProvider_queryExists (p : MysqlProvider) (sid : string)
  : M (bool * option error) :=
  '(_, err) ← QueryRow_Scan (p_c p) (SELECT_data sid);
  match err with
  | Some e =>
      if decide (e = ErrNoRows) then mret (false, None)
      else mret (false, Some e)
  | None => mret (true, None)
  end.

Definition MysqlProvider_Exist (p : MysqlProvider) (sid : string) : M bool :=
  '(exists_, err) ← MysqlProvider_queryExists p sid;
  '(exists_, err) ← (match err with
                     | Some _ => MysqlProvider_queryExists p sid
                     | None => mret (exists_, err)
                     end);
  match err with
  | Some e =>
      _ ← log_Printf ("session/mysql: error checking if session exists: "
                        +:+ Error e);
      mret false
  | None => mret exists_
  end.

Definition MysqlProvider_Destory (p : MysqlProvider) (sid : string)
  : M (option error) :=
  Exec (p_c p) (DELETE_key sid).

Definition MysqlProvider_Regenerate (p : MysqlProvider) (oldsid sid : string)
  : M (option MysqlStore * option error) :=
  taken ← MysqlProvider_Exist p sid;
  if (taken : bool) then
    mret (None, Some (Errorf ("new sid '" +:+ sid +:+ "' already exists")))
  else
    present ← MysqlProvider_Exist p oldsid;
    err ← (if negb (present : bool) then
             t ← time_Now_Unix;
             Exec (p_c p) (INSERT_row oldsid [] t)
           else mret None);
    match err with
    | Some e => mret (None, Some e)
    | None =>
        err ← Exec (p_c p) (UPDATE_key sid oldsid);
        match err with
        | Some e => mret (None, Some e)
        | None => MysqlProvider_Read p sid
        end
    end.

Definition MysqlProvider_Count (p : MysqlProvider) : M Z :=
  '(cols, err) ← QueryRow_Scan (p_c p) SELECT_COUNT;
  match err with
  | Some e => panic ("session/mysql: error counting records: " +:+ Error e)
  | None =>
      mret (match cols with Some (cols_count total) => total | _ => 0 end)
  end.

Definition MysqlProvider_GC (p : MysqlProvider) : M unit :=
  err ← Exec (p_c p) (DELETE_expired (p_expire p));
  err ← (match err with
         | Some _ => Exec (p_c p) (DELETE_expired (p_expire p))
         | None => mret err
         end);
  match err with
  | Some e =>
      log_Printf ("session/mysql: error garbage collecting: " +:+ Error e)
  | None => mret tt
  end.

End Session.

Arguments MysqlStore iface {_ _}.
Arguments GoMap iface {_ _}.
Arguments NilMap {iface _ _}.

(** ** A small codec and sample inputs to run the model on *)

(** The theorems below hold for every codec.  To evaluate the operations on
    concrete sessions, keys and values are taken to be natural numbers, all
    of them hashable and equal to themselves, with 0 standing for the nil
    value.  A session is encoded as the bytes of its pairs; a number that
    does not fit a byte cannot be encoded, a nil value makes the encoder
    panic as the registration of its type does, and a blob of odd length
    cannot be decoded. *)
Definition sample_pairs (m : GoMap nat) : list (nat * nat) :=
  match m with
  | NilMap => []
  | Map entries orphans => map_to_list entries ++ orphans
  end.

Definition sample_EncodeGob (m : GoMap nat) : string + Blob * option error :=
  if existsb (λ kv : nat * nat, Nat.eqb kv.2 0) (sample_pairs m) then
    inl nil_dereference
  else
    match mapM (λ kv : nat * nat,
                  k ← Byte.of_nat kv.1; v ← Byte.of_nat kv.2; Some [k; v])
               (sample_pairs m) with
    | Some bs => inr (concat bs, None)
    | None => inr ([], Some (GobError "gob: value out of range"))
    end.

Fixpoint sample_decode_pairs (bs : Blob) : gmap nat nat * option error :=
  match bs with
  | [] => (∅, None)
  | [_] => (∅, Some (GobError "unexpected EOF"))
  | k :: v :: rest =>
      let '(m, err) := sample_decode_pairs rest in
      (<[Byte.to_nat k := Byte.to_nat v]> m, err)
  end.

Definition sample_DecodeGob (bs : Blob) : GoMap nat * option error :=
  let '(m, err) := sample_decode_pairs bs in (Map m [], err).

Definition sample_hashable (n : nat) : bool := true.
Definition sample_self_equal (n : nat) : bool := true.
Definition sample_type_name (n : nat) : string := "int".

(** Keys of the kinds a Go map treats apart: the nil value, an integer, a
    floating-point NaN, a slice. *)
Inductive go_value : Type :=
| Nil
| Int (n : nat)
| Float_NaN
| Slice (l : list nat).

Global Instance go_value_eq_dec : EqDecision go_value.
Proof. solve_decision. Defined.

Global Instance go_value_countable : Countable go_value.
Proof.
  refine (inj_countable'
            (λ v, match v with
                  | Int n => inl n
                  | Float_NaN => inr (inl true)
                  | Nil => inr (inl false)
                  | Slice l => inr (inr l)
                  end)
            (λ x, match x with
                  | inl n => Int n
                  | inr (inl true) => Float_NaN
                  | inr (inl false) => Nil
                  | inr (inr l) => Slice l
                  end) _).
  by intros [].
Defined.

Definition go_hashable (v : go_value) : bool :=
  match v with Slice _ => false | _ => true end.

Definition go_self_equal (v : go_value) : bool :=
  match v with Float_NaN => false | _ => true end.

Definition go_type_name (v : go_value) : string :=
  match v with
  | Nil => "nil"
  | Int _ => "int"
  | Float_NaN => "float64"
  | Slice _ => "[]int"
  end.

(** A clean store over such keys, holding one pair. *)
Definition sample_go_store : MysqlStore go_value :=
  mkStore (Some session_db) "s1" (Map {[ Int 1 := Int 2 ]} []) 990 false.

(** A world whose clock reads 1000, 1001, ..., whose server clock reads
    5000, and where [sql.Open] succeeds. *)
Definition sample_world (t : gmap string Row) (fs : list (option string))
  : World :=
  mkWorld t 5000 fs [] (λ n, 1000 + Z.of_nat n) 0 []
          (λ _ _, (Some session_db, None)) 0.

(** A world where [sql.Open] fails and hands back a nil handle. *)
Definition sample_world_no_db : World :=
  mkWorld ∅ 5000 [] [] (λ n, 1000 + Z.of_nat n) 0 []
          (λ _ _, (None, Some (DriverError "sql: unknown driver"))) 0.

Definition sample_store (kv : gmap nat nat) (expiry : Z) (dirty : bool)
  : MysqlStore nat :=
  mkStore (Some session_db) "s1" (Map kv []) expiry dirty.

Definition sample_provider : MysqlProvider :=
  mkProvider (Some session_db) 3600.

(** A dirty store released while the database refuses the update. *)
Definition sample_refused_release : Outcome (MysqlStore nat * option error) :=
  MysqlStore_Release sample_EncodeGob
    (sample_store {[ 1%nat := 2%nat ]} 990 true)
    (sample_world {[ "s1" := mkRow [] 990 ]} [Some "bad connection"]).


(** * Properties *)

Section Properties.

Context {iface : Type} `{Countable iface}.
Variable nil_iface : iface.
Variable hashable : iface → bool.
Variable self_equal : iface → bool.
Variable type_name : iface → string.
Variable EncodeGob : GoMap iface → string + Blob * option error.
Variable DecodeGob : Blob → GoMap iface * option error.
Variable sessionConnMaxLifetime : Z.

Implicit Types (s : MysqlStore iface) (p : MysqlProvider) (w : World).
Implicit Types (h : sql_DB) (sid : string) (q : Stmt).

Local Abbreviation Release := (MysqlStore_Release EncodeGob).
Local Abbreviation Read := (MysqlProvider_Read DecodeGob).
Local Abbreviation Regenerate := (MysqlProvider_Regenerate DecodeGob).
Local Abbreviation Init := (MysqlProvider_Init sessionConnMaxLifetime).

(** *** Arithmetic *)

Lemma wrap64_id z : int64_range z → wrap64 z = z.
Proof.
  unfold int64_range, wrap64. intros Hz.
  rewrite Z.mod_small; lia.
Qed.

Lemma add64_exact a b : int64_range (a + b) → add64 a b = a + b.
Proof. apply wrap64_id. Qed.

(** *** The world after a database call *)

Lemma fault_at_sent i q w : fault_at i (sent q w) = fault_at (S i) w.
Proof. unfold fault_at, sent; cbn. by rewrite lookup_tail. Qed.

Lemma fault_at_set_table i t w : fault_at i (set_table t w) = fault_at i w.
Proof. done. Qed.

Lemma fault_at_tick i w : fault_at i (tick w) = fault_at i w.
Proof. done. Qed.

Lemma fault_at_add_log i l w : fault_at i (add_log l w) = fault_at i w.
Proof. done. Qed.

(** *** The store's map operations *)

Lemma Set_run s (k v : iface) w entries orphans :
  s_data s = Map entries orphans → hashable k = true →
  MysqlStore_Set hashable self_equal type_name s k v w =
    Returned
      (mkStore (s_c s) (s_sid s)
         (if self_equal k then Map (<[k := v]> entries) orphans
          else Map entries (orphans ++ [(k, v)]))
         (s_expiry s) true, None) w.
Proof.
  intros Hm Hh. unfold MysqlStore_Set, mbind, M_bind, run, mapassign.
  by rewrite Hm, Hh.
Qed.



Lemma Get_run s (k : iface) w :
  hashable k = true →
  MysqlStore_Get nil_iface hashable self_equal type_name s k w =
    Returned
      (match s_data s with
       | NilMap => nil_iface
       | Map entries _ =>
           if self_equal k then default nil_iface (entries !! k)
           else nil_iface
       end) w.
Proof. intros Hh. unfold MysqlStore_Get, run, mapaccess. by rewrite Hh. Qed.

Lemma Get_unhashable s (k : iface) w :
  hashable k = false →
  MysqlStore_Get nil_iface hashable self_equal type_name s k w =
    Panicked (unhashable type_name k) w.
Proof. intros Hh. unfold MysqlStore_Get, run, mapaccess. by rewrite Hh. Qed.

Lemma Delete_run s (k : iface) w :
  hashable k = true →
  MysqlStore_Delete hashable self_equal type_name s k w =
    Returned
      (mkStore (s_c s) (s_sid s)
         (match s_data s with
          | NilMap => NilMap
          | Map entries orphans =>
              if self_equal k then Map (delete k entries) orphans
              else Map entries orphans
          end)
         (s_expiry s) true, None) w.
Proof.
  intros Hh. unfold MysqlStore_Delete, mbind, M_bind, run, mapdelete.
  by rewrite Hh.
Qed.



(** *** Release *)

(** The branches of [Release] one by one: the skip, the encode error, and
    the update refused or run by the database. *)
Lemma Release_skip s w :
  s_dirty s = false → now w <= add64 (s_expiry s) 60 →
  Release s w = Returned (s, None) (tick w).
Proof.
  intros Hd Hfresh. unfold MysqlStore_Release, mbind, M_bind, time_Now_Unix.
  rewrite Hd; cbn.
  by rewrite (proj2 (Z.leb_le _ _) Hfresh).
Qed.

Lemma Release_no_skip s w :
  s_dirty s = true ∨ add64 (s_expiry s) 60 < now w →
  negb (s_dirty s) && (now w <=? add64 (s_expiry s) 60) = false.
Proof.
  intros [-> | Hstale]; [done |].
  rewrite (proj2 (Z.leb_gt _ _) Hstale). apply andb_false_r.
Qed.

(** For an expiry that is a plausible timestamp the int64 sum of the skip
    test is the exact sum. *)
Lemma Release_skip_test_exact s w :
  int64_range (s_expiry s + 60) →
  now w <= add64 (s_expiry s) 60 ↔ s_expiry s + 60 >= now w.
Proof. intros Hr. rewrite (add64_exact _ _ Hr). lia. Qed.

Lemma Release_encode_error s w blob e :
  s_dirty s = true ∨ add64 (s_expiry s) 60 < now w →
  EncodeGob (s_data s) = inr (blob, Some e) →
  Release s w = Returned (s, Some e) (tick w).
Proof.
  intros Hns Henc. unfold MysqlStore_Release, mbind, M_bind, time_Now_Unix.
  by rewrite (Release_no_skip _ _ Hns), Henc.
Qed.

Lemma Release_encode_panic s w msg :
  s_dirty s = true ∨ add64 (s_expiry s) 60 < now w →
  EncodeGob (s_data s) = inl msg →
  Release s w = Panicked msg (tick w).
Proof.
  intros Hns Henc. unfold MysqlStore_Release, mbind, M_bind, time_Now_Unix.
  by rewrite (Release_no_skip _ _ Hns), Henc.
Qed.

Lemma Release_write_fault s w h blob msg :
  s_dirty s = true ∨ add64 (s_expiry s) 60 < now w →
  s_c s = Some h →
  EncodeGob (s_data s) = inr (blob, None) →
  fault_at 0 w = Some msg →
  Release s w =
    Returned (mkStore (s_c s) (s_sid s) (s_data s) (now w) false,
              Some (DriverError msg))
             (sent (UPDATE_data_expiry blob (now w) (s_sid s)) (tick w)).
Proof.
  intros Hns Hc Henc Hf.
  unfold MysqlStore_Release, mbind, M_bind, time_Now_Unix.
  rewrite (Release_no_skip _ _ Hns), Henc, Hc. unfold run, mret, M_ret, Exec.
  by rewrite fault_at_tick, Hf.
Qed.

Lemma Release_write_ok s w h blob :
  s_dirty s = true ∨ add64 (s_expiry s) 60 < now w →
  s_c s = Some h →
  EncodeGob (s_data s) = inr (blob, None) →
  fault_at 0 w = None →
  Release s w =
    Returned (mkStore (s_c s) (s_sid s) (s_data s) (now w) false, None)
             (set_table (match table w !! s_sid s with
                         | Some _ => <[s_sid s := mkRow blob (now w)]> (table w)
                         | None => table w
                         end)
                (sent (UPDATE_data_expiry blob (now w) (s_sid s)) (tick w))).
Proof.
  intros Hns Hc Henc Hf.
  unfold MysqlStore_Release, mbind, M_bind, time_Now_Unix.
  rewrite (Release_no_skip _ _ Hns), Henc, Hc. unfold run, mret, M_ret, Exec.
  by rewrite fault_at_tick, Hf.
Qed.

(** C1: the skip rule of [Release].  With [dirty] false and
    [expiry + 60 >= now] (Go's int64 sum) nothing is handed to the database,
    the table and the store, so its expiry too, stay as they are.  With
    [dirty] true or [expiry + 60 < now] the encoded map and [now] are sent in
    an update keyed by the store's id, [expiry] becomes [now] and [dirty] is
    cleared; when the database runs the statement, the row of that id holds
    the blob and [now]. *)
Theorem Release_skip_rule s w :
  (s_dirty s = false → now w <= add64 (s_expiry s) 60 →
   ∃ w', Release s w = Returned (s, None) w'
         ∧ trace w' = trace w ∧ table w' = table w)
  ∧
  (s_dirty s = true ∨ add64 (s_expiry s) 60 < now w →
   ∀ h blob, s_c s = Some h → EncodeGob (s_data s) = inr (blob, None) →
   ∃ s' err w',
     Release s w = Returned (s', err) w'
     ∧ trace w' = trace w ++ [UPDATE_data_expiry blob (now w) (s_sid s)]
     ∧ s_expiry s' = now w ∧ s_dirty s' = false
     ∧ s_data s' = s_data s ∧ s_sid s' = s_sid s
     ∧ (fault_at 0 w = None →
        err = None
        ∧ ∀ k, table w' !! k =
               if decide (k = s_sid s)
               then (λ _, mkRow blob (now w)) <$> table w !! k
               else table w !! k)).
Proof.
  split.
  - intros Hd Hfresh. exists (tick w). by rewrite Release_skip.
  - intros Hns h blob Hc Henc.
    destruct (fault_at 0 w) as [msg|] eqn:Hf.
    + eexists _, _, _. rewrite (Release_write_fault _ _ _ _ _ Hns Hc Henc Hf).
      by repeat split.
    + eexists _, _, _. rewrite (Release_write_ok _ _ _ _ Hns Hc Henc Hf).
      repeat split; try done.
      intros k; cbn.
      destruct (decide (k = s_sid s)) as [-> | Hne].
      * destruct (table w !! s_sid s) eqn:Hrow; cbn.
        -- by rewrite lookup_insert_eq.
        -- by rewrite Hrow.
      * destruct (table w !! s_sid s); [|done].
        by rewrite lookup_insert_ne.
Qed.

(** C2, as the code has it: on the write-back path an encode error is
    returned with the store untouched and nothing sent to the database; once
    the map is encoded the update's own result is returned, error or not, and
    in both cases [dirty] has been cleared and [expiry] set to [now]. *)
Theorem Release_write_back_errors s w :
  s_dirty s = true ∨ add64 (s_expiry s) 60 < now w →
  (∀ blob e, EncodeGob (s_data s) = inr (blob, Some e) →
     ∃ w', Release s w = Returned (s, Some e) w'
           ∧ trace w' = trace w ∧ table w' = table w)
  ∧
  (∀ h blob, s_c s = Some h → EncodeGob (s_data s) = inr (blob, None) →
     ∃ s' err w',
       Release s w = Returned (s', err) w'
       ∧ s_dirty s' = false ∧ s_expiry s' = now w
       ∧ err = (DriverError <$> fault_at 0 w)
       ∧ (is_Some err → table w' = table w)).
Proof.
  intros Hns. split.
  - intros blob e Henc. exists (tick w).
    by rewrite (Release_encode_error _ _ _ _ Hns Henc).
  - intros h blob Hc Henc.
    destruct (fault_at 0 w) as [msg|] eqn:Hf.
    + eexists _, _, _. rewrite (Release_write_fault _ _ _ _ _ Hns Hc Henc Hf).
      by repeat split.
    + eexists _, _, _. rewrite (Release_write_ok _ _ _ _ Hns Hc Henc Hf).
      by repeat split.
Qed.


(** *** Database calls through a live handle *)

Lemma Exec_fault h q w msg :
  fault_at 0 w = Some msg →
  Exec (Some h) q w = Returned (Some (DriverError msg)) (sent q w).
Proof. intros Hf. unfold Exec. by rewrite Hf. Qed.

Lemma Exec_run h q w :
  fault_at 0 w = None →
  Exec (Some h) q w =
    match exec_stmt q (unix_timestamp w) (table w) with
    | inl e => Returned (Some e) (sent q w)
    | inr t' => Returned None (set_table t' (sent q w))
    end.
Proof. intros Hf. unfold Exec. by rewrite Hf. Qed.

Lemma QueryRow_Scan_fault h q w msg :
  fault_at 0 w = Some msg →
  QueryRow_Scan (Some h) q w = Returned (None, Some (DriverError msg)) (sent q w).
Proof. intros Hf. unfold QueryRow_Scan. by rewrite Hf. Qed.

Lemma QueryRow_Scan_run h q w :
  fault_at 0 w = None →
  QueryRow_Scan (Some h) q w =
    match query_stmt q (table w) with
    | None => Returned (None, Some ErrNoRows) (sent q w)
    | Some cs => Returned (Some cs, None) (sent q w)
    end.
Proof. intros Hf. unfold QueryRow_Scan. by rewrite Hf. Qed.

Create Rewrite HintDb world.
#[local] Hint Rewrite fault_at_sent fault_at_set_table fault_at_tick fault_at_add_log
  : world.

(** *** Exist *)

Lemma queryExists_run p h sid w :
  p_c p = Some h →
  MysqlProvider_queryExists p sid w =
    Returned
      (match fault_at 0 w with
       | Some msg => (false, Some (DriverError msg))
       | None => (bool_decide (is_Some (table w !! sid)), None)
       end)
      (sent (SELECT_data sid) w).
Proof.
  intros Hc. unfold MysqlProvider_queryExists, mbind, M_bind. rewrite Hc.
  destruct (fault_at 0 w) as [msg|] eqn:Hf.
  - by rewrite (QueryRow_Scan_fault _ _ _ _ Hf).
  - rewrite (QueryRow_Scan_run _ _ _ Hf); cbn.
    by destruct (table w !! sid).
Qed.

Lemma Exist_run p h sid w :
  p_c p = Some h →
  MysqlProvider_Exist p sid w =
    match fault_at 0 w with
    | None =>
        Returned (bool_decide (is_Some (table w !! sid)))
                 (sent (SELECT_data sid) w)
    | Some _ =>
        match fault_at 1 w with
        | None =>
            Returned (bool_decide (is_Some (table w !! sid)))
                     (sent (SELECT_data sid) (sent (SELECT_data sid) w))
        | Some msg =>
            Returned false
              (add_log ("session/mysql: error checking if session exists: "
                          +:+ msg)
                 (sent (SELECT_data sid) (sent (SELECT_data sid) w)))
        end
    end.
Proof.
  intros Hc. unfold MysqlProvider_Exist, mbind at 1, M_bind at 1.
  rewrite (queryExists_run _ _ _ _ Hc).
  destruct (fault_at 0 w) as [m1|] eqn:Hf0; [|done].
  unfold mbind, M_bind. rewrite (queryExists_run _ _ _ _ Hc).
  autorewrite with world.
  by destruct (fault_at 1 w) as [m2|] eqn:Hf1.
Qed.

(** C7: [Exist] asks the database once when the query answers: the result
    is [false] for no row and [true] for a row, with no retry.  When the
    query fails it is issued exactly once more; the retry's answer is
    returned if there is one, and if the retry fails too the error is logged
    and [false] is returned.  The table is never changed. *)
Theorem Exist_retry_once p h sid w :
  p_c p = Some h →
  ∃ b w',
    MysqlProvider_Exist p sid w = Returned b w'
    ∧ table w' = table w
    ∧ (fault_at 0 w = None →
       trace w' = trace w ++ [SELECT_data sid]
       ∧ logs w' = logs w
       ∧ (table w !! sid = None → b = false)
       ∧ (is_Some (table w !! sid) → b = true))
    ∧ (is_Some (fault_at 0 w) →
       trace w' = trace w ++ [SELECT_data sid; SELECT_data sid]
       ∧ (fault_at 1 w = None →
          logs w' = logs w
          ∧ (table w !! sid = None → b = false)
          ∧ (is_Some (table w !! sid) → b = true))
       ∧ (∀ msg, fault_at 1 w = Some msg →
          b = false
          ∧ logs w' =
              logs w ++ ["session/mysql: error checking if session exists: "
                           +:+ msg])).
Proof.
  intros Hc. rewrite (Exist_run _ _ _ _ Hc).
  assert (Hno : table w !! sid = None →
                bool_decide (is_Some (table w !! sid)) = false).
  { intros ->. apply bool_decide_eq_false. by intros [? ?]. }
  assert (Hyes : is_Some (table w !! sid) →
                 bool_decide (is_Some (table w !! sid)) = true).
  { intros Hs. by apply bool_decide_eq_true. }
  destruct (fault_at 0 w) as [m1|] eqn:Hf0.
  - destruct (fault_at 1 w) as [m2|] eqn:Hf1; eexists _, _;
      (split; [reflexivity|]); cbn; (split; [done|]).
    + split; [done|]. intros _. rewrite <- app_assoc. split; [done|].
      split; [done|]. by intros msg [= <-].
    + split; [done|]. intros _. rewrite <- app_assoc. split; [done|].
      split; [done|]. done.
  - eexists _, _. split; [reflexivity|]. cbn. split; [done|].
    split; [done|]. by intros [? ?].
Qed.

(** *** Count *)

(** C8: [Count] returns the number of rows when the count query answers,
    and panics with the query's error when it fails. *)
Theorem Count_total_or_panic p h w :
  p_c p = Some h →
  (fault_at 0 w = None →
   ∃ w', MysqlProvider_Count p w = Returned (Z.of_nat (size (table w))) w'
         ∧ table w' = table w)
  ∧ (∀ msg, fault_at 0 w = Some msg →
     ∃ w', MysqlProvider_Count p w =
             Panicked ("session/mysql: error counting records: " +:+ msg) w').
Proof.
  intros Hc. unfold MysqlProvider_Count, mbind, M_bind. rewrite Hc. split.
  - intros Hf. rewrite (QueryRow_Scan_run _ _ _ Hf); cbn. by eexists.
  - intros msg Hf. rewrite (QueryRow_Scan_fault _ _ _ _ Hf); cbn. by eexists.
Qed.

(** *** GC *)

Lemma GC_run p h w :
  p_c p = Some h →
  MysqlProvider_GC p w =
    let q := DELETE_expired (p_expire p) in
    let kept :=
      filter (λ kr, expired (p_expire p) (unix_timestamp w) kr.2 = false)
             (table w) in
    match fault_at 0 w with
    | None => Returned tt (set_table kept (sent q w))
    | Some _ =>
        match fault_at 1 w with
        | None => Returned tt (set_table kept (sent q (sent q w)))
        | Some msg =>
            Returned tt
              (add_log ("session/mysql: error garbage collecting: " +:+ msg)
                 (sent q (sent q w)))
        end
    end.
Proof.
  intros Hc. unfold MysqlProvider_GC, mbind, M_bind. rewrite Hc. cbn zeta.
  destruct (fault_at 0 w) as [m1|] eqn:Hf0.
  - rewrite (Exec_fault _ _ _ _ Hf0).
    destruct (fault_at 1 w) as [m2|] eqn:Hf1.
    + rewrite Exec_fault with (msg := m2); [done|].
      by autorewrite with world.
    + rewrite Exec_run; [done|]. by autorewrite with world.
  - by rewrite (Exec_run _ _ _ Hf0).
Qed.

Lemma lookup_kept expire t (tbl : gmap string Row) k r :
  filter (λ kr, expired expire t kr.2 = false) tbl !! k = Some r
  ↔ tbl !! k = Some r ∧ ¬ row_expiry r + expire <= t.
Proof.
  rewrite map_lookup_filter_Some; cbn. unfold expired.
  rewrite Z.leb_gt. split; intros [? ?]; split; first [done | lia].
Qed.

(** C4: [GC] always returns normally.  When the delete statement runs, at
    the first attempt or at the single retry that follows a failed first
    attempt, the rows left are exactly the rows with
    [expiry + expire <= now] false, each one as it was.  When both attempts
    fail the table is unchanged and the error is logged. *)
Theorem GC_sweeps_expired p h w :
  p_c p = Some h →
  ∃ w',
    MysqlProvider_GC p w = Returned tt w'
    ∧ (fault_at 0 w = None →
       trace w' = trace w ++ [DELETE_expired (p_expire p)]
       ∧ logs w' = logs w
       ∧ ∀ k r, table w' !! k = Some r
                ↔ table w !! k = Some r
                  ∧ ¬ row_expiry r + p_expire p <= unix_timestamp w)
    ∧ (is_Some (fault_at 0 w) →
       trace w' = trace w ++ [DELETE_expired (p_expire p);
                              DELETE_expired (p_expire p)]
       ∧ (fault_at 1 w = None →
          logs w' = logs w
          ∧ ∀ k r, table w' !! k = Some r
                   ↔ table w !! k = Some r
                     ∧ ¬ row_expiry r + p_expire p <= unix_timestamp w)
       ∧ (∀ msg, fault_at 1 w = Some msg →
          table w' = table w
          ∧ logs w' =
              logs w ++ ["session/mysql: error garbage collecting: "
                           +:+ msg])).
Proof.
  intros Hc. rewrite (GC_run _ _ _ Hc); cbn zeta.
  destruct (fault_at 0 w) as [m1|] eqn:Hf0.
  - destruct (fault_at 1 w) as [m2|] eqn:Hf1; eexists;
      (split; [reflexivity|]); cbn; (split; [done|]); intros _;
      rewrite <- app_assoc; (split; [done|]).
    + split; [done|]. by intros msg [= <-].
    + split; [|done]. intros _. split; [done|]. apply lookup_kept.
  - eexists. split; [reflexivity|]. cbn. split.
    + intros _. split; [done|]. split; [done|]. apply lookup_kept.
    + by intros [? ?].
Qed.

(** *** Read *)

Lemma Read_query_fault p h sid w msg :
  p_c p = Some h → fault_at 0 w = Some msg →
  Read p sid w =
    Returned (None, Some (DriverError msg))
             (sent (SELECT_data_expiry sid) (tick w)).
Proof.
  intros Hc Hf. unfold MysqlProvider_Read, mbind, M_bind, time_Now_Unix.
  rewrite Hc, QueryRow_Scan_fault with (msg := msg); [|done].
  by rewrite decide_False.
Qed.

Lemma Read_fresh p h sid w :
  p_c p = Some h → table w !! sid = None → fault_at 0 w = None →
  Read p sid w =
    let w1 := sent (SELECT_data_expiry sid) (tick w) in
    let w2 := sent (INSERT_row sid [] (now w)) w1 in
    match fault_at 1 w with
    | Some msg => Returned (None, Some (DriverError msg)) w2
    | None =>
        Returned (Some (NewMysqlStore (Some h) sid ∅ (now w)), None)
                 (set_table (<[sid := mkRow [] (now w)]> (table w)) w2)
    end.
Proof.
  intros Hc Hrow Hf. unfold MysqlProvider_Read, mbind, M_bind, time_Now_Unix.
  rewrite Hc, QueryRow_Scan_run; [|done]. cbn. rewrite Hrow; cbn.
  rewrite decide_True; [|done].
  autorewrite with world.
  destruct (fault_at 1 w) as [msg|] eqn:Hf1; [done|].
  cbn. by rewrite Hrow.
Qed.

Lemma Read_found p h sid w r :
  p_c p = Some h → table w !! sid = Some r → fault_at 0 w = None →
  Read p sid w =
    Returned
      (if decide (length (row_data r) = 0%nat) then
         (Some (NewMysqlStore (Some h) sid ∅ (row_expiry r)), None)
       else
         match DecodeGob (row_data r) with
         | (_, Some e) => (None, Some e)
         | (kv, None) =>
             (Some (NewMysqlStore (Some h) sid kv (row_expiry r)), None)
         end)
      (sent (SELECT_data_expiry sid) (tick w)).
Proof.
  intros Hc Hrow Hf. unfold MysqlProvider_Read, mbind, M_bind, time_Now_Unix.
  rewrite Hc, QueryRow_Scan_run; [|done]. cbn. rewrite Hrow; cbn.
  rewrite decide_False; [|done]. cbn.
  destruct (decide (length (row_data r) = 0%nat)); [done|].
  by destruct (DecodeGob (row_data r)) as [kv [e|]].
Qed.

(** C5: for an id without a row, when the database runs the two statements,
    [Read] inserts the row (id, empty blob, current time) and returns a
    clean store with an empty map and that time as expiry.  For a row with a
    non-empty blob that does not decode, [Read] returns an error and no
    store, the decoder's error when the query answered, and leaves the
    table alone. *)
Theorem Read_fresh_or_undecodable p h sid w :
  p_c p = Some h →
  (table w !! sid = None → fault_at 0 w = None → fault_at 1 w = None →
   ∃ s w',
     Read p sid w = Returned (Some s, None) w'
     ∧ s_sid s = sid ∧ s_data s = ∅ ∧ s_expiry s = now w ∧ s_dirty s = false
     ∧ table w' = <[sid := mkRow [] (now w)]> (table w)
     ∧ trace w' =
         trace w ++ [SELECT_data_expiry sid; INSERT_row sid [] (now w)])
  ∧ (∀ r kv e,
       table w !! sid = Some r → row_data r ≠ [] →
       DecodeGob (row_data r) = (kv, Some e) →
       ∃ e' w',
         Read p sid w = Returned (None, Some e') w'
         ∧ table w' = table w
         ∧ (fault_at 0 w = None → e' = e)).
Proof.
  intros Hc. split.
  - intros Hrow Hf0 Hf1. rewrite (Read_fresh _ _ _ _ Hc Hrow Hf0), Hf1.
    eexists _, _. split; [reflexivity|]. cbn.
    rewrite <- app_assoc. by repeat split.
  - intros r kv e Hrow Hne Hdec.
    destruct (fault_at 0 w) as [msg|] eqn:Hf0.
    + rewrite (Read_query_fault _ _ _ _ _ Hc Hf0). by eexists _, _.
    + rewrite (Read_found _ _ _ _ _ Hc Hrow Hf0), Hdec.
      rewrite decide_False; [by eexists _, _|].
      by destruct (row_data r).
Qed.

(** *** Init *)

(** C10: [Init] configures the connection lifetime before it looks at the
    error of [sql.Open].  When the open fails with a nil handle this call
    dereferences nil: [Init] panics and never returns, with the open's error
    or anything else.  A failed open that still handed out a handle gets its
    lifetime configured and then has its error returned. *)
Theorem Init_nil_handle_panics p expire connStr w e :
  (sql_Open_result w "mysql" connStr = (None, Some e) →
   Init p expire connStr w = Panicked nil_dereference w
   ∧ ∀ p' err w', Init p expire connStr w ≠ Returned (p', err) w')
  ∧ (∀ h, sql_Open_result w "mysql" connStr = (Some h, Some e) →
     ∃ w', Init p expire connStr w
             = Returned (mkProvider (Some h) expire, Some e) w'
           ∧ connMaxLifetime w' =
               Z.max 0 (mul64 time_Second sessionConnMaxLifetime)).
Proof.
  unfold MysqlProvider_Init, mbind, M_bind, sql_Open. split.
  - intros ->. cbn. split; [done|]. by intros p' err w'.
  - intros h ->. cbn. by eexists.
Qed.

(** *** Regenerate *)


(** What [Regenerate] does after the check of the new id has answered
    [false]: the source's statements from the check of the old id on. *)
Local Abbreviation rotate p oldsid sid :=
  (present ← MysqlProvider_Exist p oldsid;
   err ← (if negb (present : bool) then
            t ← time_Now_Unix;
            Exec (p_c p) (INSERT_row oldsid [] t)
          else mret None);
   match err with
   | Some e => mret (None, Some e)
   | None =>
       err ← Exec (p_c p) (UPDATE_key sid oldsid);
       match err with
       | Some e => mret (None, Some e)
       | None => Read p sid
       end
   end).

Lemma Regenerate_free p h oldsid sid w :
  p_c p = Some h →
  table w !! sid = None → fault_at 0 w = None →
  Regenerate p oldsid sid w = rotate p oldsid sid (sent (SELECT_data sid) w).
Proof.
  intros Hc Hrow Hf. unfold MysqlProvider_Regenerate, mbind at 1, M_bind at 1.
  rewrite (Exist_run _ _ _ _ Hc), Hf, Hrow.
  rewrite bool_decide_eq_false_2; [done|]. by intros [? ?].
Qed.



(** The old id has a row: rename, read. *)
Lemma rotate_rename p h oldsid sid w r :
  p_c p = Some h →
  table w !! oldsid = Some r → sid ≠ oldsid → fault_at 0 w = None →
  let w2 := sent (UPDATE_key sid oldsid) (sent (SELECT_data oldsid) w) in
  rotate p oldsid sid w =
    match fault_at 1 w with
    | Some msg => Returned (None, Some (DriverError msg)) w2
    | None =>
        match table w !! sid with
        | None =>
            Read p sid (set_table (<[sid := r]> (delete oldsid (table w))) w2)
        | Some _ => Returned (None, Some (duplicate_entry sid)) w2
        end
    end.
Proof.
  intros Hc Hold Hne Hf0. cbn zeta.
  unfold mbind at 1, M_bind at 1. rewrite (Exist_run _ _ _ _ Hc), Hf0.
  rewrite Hold, bool_decide_eq_true_2 by done.
  cbn [negb]. unfold mbind, M_bind, mret, M_ret. rewrite Hc.
  unfold Exec at 1. autorewrite with world.
  destruct (fault_at 1 w) as [m1|] eqn:Hf1; [done|].
  cbn [exec_stmt table sent tick set_faults add_trace]. rewrite Hold.
  rewrite decide_False by done.
  by destruct (table w !! sid).
Qed.


End Properties.

(** * The theorems at work on sample inputs *)

(** A store loaded ten seconds ago and left clean is released without a
    statement; one loaded a hundred seconds ago is written back. *)
Lemma Release_skip_rule_witness :
  (∃ w', MysqlStore_Release sample_EncodeGob
           (sample_store {[ 1%nat := 2%nat ]} 990 false) (sample_world ∅ [])
         = Returned (sample_store {[ 1%nat := 2%nat ]} 990 false, None) w'
         ∧ trace w' = [])
  ∧ (∃ s' err w',
       MysqlStore_Release sample_EncodeGob
         (sample_store {[ 1%nat := 2%nat ]} 900 false) (sample_world ∅ [])
       = Returned (s', err) w'
       ∧ trace w' = [UPDATE_data_expiry ["001"%byte; "002"%byte] 1000 "s1"]
       ∧ s_expiry s' = 1000 ∧ s_dirty s' = false).
Proof.
  split.
  - destruct (proj1 (Release_skip_rule sample_EncodeGob
                       (sample_store {[ 1%nat := 2%nat ]} 990 false)
                       (sample_world ∅ [])))
      as (w' & Hrun & Htrace & _);
      [reflexivity | by vm_compute |].
    exists w'. split; [exact Hrun | exact Htrace].
  - destruct (proj2 (Release_skip_rule sample_EncodeGob
                       (sample_store {[ 1%nat := 2%nat ]} 900 false)
                       (sample_world ∅ []))
                (or_intror eq_refl) session_db
                ["001"%byte; "002"%byte] eq_refl)
      as (s' & err & w' & Hrun & Htrace & Hexp & Hdirty & _);
      [by vm_compute |].
    exists s', err, w'. repeat split; [exact Hrun | exact Htrace | exact Hexp
                                      | exact Hdirty].
Defined.

(** A dirty store whose value does not encode keeps its state; one whose
    update is refused by the database has lost its dirty flag. *)
Lemma Release_write_back_errors_witness :
  (∃ w', MysqlStore_Release sample_EncodeGob
           (sample_store {[ 1%nat := 400%nat ]} 990 true)
           (sample_world {[ "s1" := mkRow [] 990 ]} [])
         = Returned (sample_store {[ 1%nat := 400%nat ]} 990 true,
                     Some (GobError "gob: value out of range")) w'
         ∧ trace w' = [])
  ∧ (∃ s' err w',
       MysqlStore_Release sample_EncodeGob
         (sample_store {[ 1%nat := 2%nat ]} 990 true)
         (sample_world {[ "s1" := mkRow [] 990 ]} [Some "bad connection"])
       = Returned (s', err) w'
       ∧ s_dirty s' = false ∧ s_expiry s' = 1000
       ∧ err = Some (DriverError "bad connection")).
Proof.
  split.
  - destruct (Release_write_back_errors sample_EncodeGob
                (sample_store {[ 1%nat := 400%nat ]} 990 true)
                (sample_world {[ "s1" := mkRow [] 990 ]} []))
      as [Hencode _]; [left; reflexivity|].
    destruct (Hencode [] (GobError "gob: value out of range"))
      as (w' & Hrun & Htrace & _); [vm_compute; reflexivity|].
    exists w'. split; [exact Hrun | exact Htrace].
  - destruct (Release_write_back_errors sample_EncodeGob
                (sample_store {[ 1%nat := 2%nat ]} 990 true)
                (sample_world {[ "s1" := mkRow [] 990 ]}
                              [Some "bad connection"]))
      as [_ Hupdate]; [left; reflexivity|].
    destruct (Hupdate session_db ["001"%byte; "002"%byte])
      as (s' & err & w' & Hrun & Hdirty & Hexp & Herr & _);
      [reflexivity | vm_compute; reflexivity |].
    exists s', err, w'.
    repeat split; [exact Hrun | exact Hdirty | exact Hexp | exact Herr].
Defined.

(** C2 refuted as stated: the store is dirty with expiry 990, the update
    fails with "bad connection", and [Release] returns that error together
    with a store whose dirty flag is cleared and whose expiry is 1000. *)
Lemma Release_db_error_changes_state :
  result sample_refused_release
  = Some (sample_store {[ 1%nat := 2%nat ]} 1000 false,
          Some (DriverError "bad connection"))
  ∧ table (final sample_refused_release) = {[ "s1" := mkRow [] 990 ]}.
Proof. split; vm_compute; reflexivity. Qed.

(** The spec's sweep: with a lifetime of 3600 and the server clock at 5000,
    the row last written at 1000 goes and the row written at 4900 stays. *)
Lemma GC_sweeps_expired_witness :
  ∃ w',
    MysqlProvider_GC sample_provider
      (sample_world {[ "a" := mkRow [] 1000; "b" := mkRow [] 4900 ]} [])
    = Returned tt w'
    ∧ table w' !! "a" = None
    ∧ table w' !! "b" = Some (mkRow [] 4900).
Proof.
  destruct (GC_sweeps_expired sample_provider session_db
              (sample_world {[ "a" := mkRow [] 1000; "b" := mkRow [] 4900 ]} []))
    as (w' & Hrun & Hfirst & _); [reflexivity|].
  destruct Hfirst as (_ & _ & Hrows); [reflexivity|].
  exists w'. split; [exact Hrun|]. split.
  - destruct (table w' !! "a") as [r|] eqn:Ha; [|reflexivity].
    apply Hrows in Ha as [Hrow Hkeep].
    assert (r = mkRow [] 1000) as -> by (vm_compute in Hrow; congruence).
    exfalso. apply Hkeep. by vm_compute.
  - apply Hrows. split; [by vm_compute|]. by vm_compute.
Defined.

(** A first [Read] on an empty table, and a [Read] of a row whose blob is
    cut short. *)
Lemma Read_fresh_or_undecodable_witness :
  (∃ s w',
     MysqlProvider_Read sample_DecodeGob sample_provider "s1"
       (sample_world ∅ [])
     = Returned (Some s, None) w'
     ∧ s_data s = ∅ ∧ s_expiry s = 1000 ∧ s_dirty s = false
     ∧ table w' = {[ "s1" := mkRow [] 1000 ]})
  ∧ (∃ e' w',
       MysqlProvider_Read sample_DecodeGob sample_provider "s1"
         (sample_world {[ "s1" := mkRow ["007"%byte] 990 ]} [])
       = Returned (None, Some e') w'
       ∧ e' = GobError "unexpected EOF").
Proof.
  split.
  - destruct (Read_fresh_or_undecodable sample_DecodeGob sample_provider
                session_db "s1" (sample_world ∅ []))
      as [Hfresh _]; [reflexivity|].
    destruct Hfresh
      as (s & w' & Hrun & _ & Hdata & Hexp & Hdirty & Htable & _);
      [vm_compute; reflexivity | reflexivity | reflexivity |].
    exists s, w'. repeat split;
      [exact Hrun | exact Hdata | exact Hexp | exact Hdirty | exact Htable].
  - destruct (Read_fresh_or_undecodable sample_DecodeGob sample_provider
                session_db "s1"
                (sample_world {[ "s1" := mkRow ["007"%byte] 990 ]} []))
      as [_ Hbroken]; [reflexivity|].
    destruct (Hbroken (mkRow ["007"%byte] 990) ∅ (GobError "unexpected EOF"))
      as (e' & w' & Hrun & _ & He);
      [vm_compute; reflexivity | discriminate | reflexivity |].
    exists e', w'. split; [exact Hrun | exact (He eq_refl)].
Defined.



(** An existence query that fails once and then finds the row. *)
Lemma Exist_retry_once_witness :
  ∃ w',
    MysqlProvider_Exist sample_provider "s1"
      (sample_world {[ "s1" := mkRow [] 990 ]} [Some "bad connection"])
    = Returned true w'
    ∧ trace w' = [SELECT_data "s1"; SELECT_data "s1"]
    ∧ logs w' = [].
Proof.
  destruct (Exist_retry_once sample_provider session_db "s1"
              (sample_world {[ "s1" := mkRow [] 990 ]} [Some "bad connection"]))
    as (b & w' & Hrun & _ & _ & Hretry); [reflexivity|].
  destruct Hretry as (Htrace & Hsecond & _);
    [exists "bad connection"; reflexivity|].
  destruct Hsecond as (Hlogs & _ & Hyes); [reflexivity|].
  rewrite Hyes in Hrun; [|exists (mkRow [] 990); vm_compute; reflexivity].
  exists w'. split; [exact Hrun|]. split; [exact Htrace | exact Hlogs].
Defined.

(** Counting two rows, and counting through a broken connection. *)
Lemma Count_total_or_panic_witness :
  (∃ w',
     MysqlProvider_Count sample_provider
       (sample_world {[ "a" := mkRow [] 1000; "b" := mkRow [] 4900 ]} [])
     = Returned 2 w')
  ∧ (∃ w',
       MysqlProvider_Count sample_provider
         (sample_world ∅ [Some "bad connection"])
       = Panicked "session/mysql: error counting records: bad connection" w').
Proof.
  split.
  - destruct (Count_total_or_panic sample_provider session_db
                (sample_world
                   {[ "a" := mkRow [] 1000; "b" := mkRow [] 4900 ]} []))
      as [Hcount _]; [reflexivity|].
    destruct Hcount as (w' & Hrun & _); [reflexivity|].
    exists w'. exact Hrun.
  - destruct (Count_total_or_panic sample_provider session_db
                (sample_world ∅ [Some "bad connection"]))
      as [_ Hpanic]; [reflexivity|].
    exact (Hpanic "bad connection" eq_refl).
Defined.





(** [Init] when the driver is unknown. *)
Lemma Init_nil_handle_panics_witness :
  MysqlProvider_Init 60 (mkProvider None 0) 3600 "user:pw@tcp(db)/grafana"
    sample_world_no_db
  = Panicked nil_dereference sample_world_no_db.
Proof.
  destruct (Init_nil_handle_panics 60 (mkProvider None 0) 3600
              "user:pw@tcp(db)/grafana" sample_world_no_db
              (DriverError "sql: unknown driver"))
    as [Hnil _].
  destruct Hnil as [Hpanic _]; [reflexivity|].
  exact Hpanic.
Defined.

(** * Further properties of the store and the provider *)

Section Further.

Context {iface : Type} `{Countable iface}.
Variable nil_iface : iface.
Variable hashable : iface → bool.
Variable self_equal : iface → bool.
Variable type_name : iface → string.
Variable EncodeGob : GoMap iface → string + Blob * option error.
Variable DecodeGob : Blob → GoMap iface * option error.
Variable sessionConnMaxLifetime : Z.

Implicit Types (s : MysqlStore iface) (p : MysqlProvider) (w : World).
Implicit Types (h : sql_DB) (sid : string) (q : Stmt).

Local Abbreviation Release := (MysqlStore_Release EncodeGob).
Local Abbreviation Read := (MysqlProvider_Read DecodeGob).
Local Abbreviation Regenerate := (MysqlProvider_Regenerate DecodeGob).
Local Abbreviation Init := (MysqlProvider_Init sessionConnMaxLifetime).

Create Rewrite HintDb calls.
#[local] Hint Rewrite fault_at_sent fault_at_set_table fault_at_tick
  fault_at_add_log : calls.

(** *** The map of a store *)

(** X1: on a store whose map is not nil, [Set(k,v)] with a key that can
    be hashed changes what [k] reads and nothing else: every other key reads
    as before (or panics as before), and the id, the expiry and the handle
    stay.  A second [Set] on a key equal to itself leaves the map as if only
    the second had been made; on a key not equal to itself (a NaN) it adds a
    second entry. *)
Theorem Set_changes_one_key s (k v : iface) w entries orphans :
  s_data s = Map entries orphans → hashable k = true →
  ∃ s',
    MysqlStore_Set hashable self_equal type_name s k v w
    = Returned (s', None) w
    ∧ (∀ k', k' ≠ k →
         MysqlStore_Get nil_iface hashable self_equal type_name s' k' w
         = MysqlStore_Get nil_iface hashable self_equal type_name s k' w)
    ∧ s_sid s' = s_sid s ∧ s_expiry s' = s_expiry s ∧ s_c s' = s_c s
    ∧ ∀ v', ∃ s'' s2,
        MysqlStore_Set hashable self_equal type_name s' k v' w
        = Returned (s'', None) w
        ∧ MysqlStore_Set hashable self_equal type_name s k v' w
          = Returned (s2, None) w
        ∧ (self_equal k = true → s_data s'' = s_data s2)
        ∧ (self_equal k = false →
           s_data s'' = Map entries (orphans ++ [(k, v); (k, v')])).
Proof.
  intros Hm Hh. eexists. rewrite (Set_run _ _ _ _ _ _ _ _ _ Hm Hh).
  split; [reflexivity|]. split.
  { intros k' Hne. destruct (hashable k') eqn:Hh'.
    - rewrite !(Get_run _ _ _ _ _ _ _ Hh'); cbn. rewrite Hm. f_equal.
      destruct (self_equal k); [|done].
      destruct (self_equal k'); [|done]. by rewrite lookup_insert_ne.
    - by rewrite !(Get_unhashable _ _ _ _ _ _ _ Hh'). }
  do 3 (split; [done|]). intros v'.
  destruct (self_equal k) eqn:Hse.
  - eexists _, _. rewrite (Set_run _ _ _ _ _ _ _ _ _ Hm Hh).
    erewrite Set_run; [| reflexivity | done ]. rewrite Hse.
    split; [reflexivity|]. split; [reflexivity|]. cbn.
    split; [|done]. intros _. by rewrite insert_insert_eq.
  - eexists _, _. rewrite (Set_run _ _ _ _ _ _ _ _ _ Hm Hh).
    erewrite Set_run; [| reflexivity | done ]. rewrite Hse.
    split; [reflexivity|]. split; [reflexivity|]. cbn.
    split; [done|]. intros _. by rewrite <- app_assoc.
Qed.

(** X2: on a store whose map is not nil, for a key that can be hashed,
    [Delete(k)] after [Set(k,v)] makes [Get(k)] return nil and leaves the
    other keys as they were before the [Set]; deleting again changes
    nothing.  For a key equal to itself that was not in the map, the map is
    back to what it was; for a key not equal to itself (a NaN) the entry
    that [Set] added stays in the map. *)
Theorem Delete_after_Set s (k v : iface) w entries orphans :
  s_data s = Map entries orphans → hashable k = true →
  ∃ s1 s2,
    MysqlStore_Set hashable self_equal type_name s k v w
    = Returned (s1, None) w
    ∧ MysqlStore_Delete hashable self_equal type_name s1 k w
      = Returned (s2, None) w
    ∧ MysqlStore_Get nil_iface hashable self_equal type_name s2 k w
      = Returned nil_iface w
    ∧ (∀ k', k' ≠ k →
         MysqlStore_Get nil_iface hashable self_equal type_name s2 k' w
         = MysqlStore_Get nil_iface hashable self_equal type_name s k' w)
    ∧ (self_equal k = true → entries !! k = None → s_data s2 = s_data s)
    ∧ (self_equal k = false → s_data s2 = Map entries (orphans ++ [(k, v)]))
    ∧ ∃ s3,
        MysqlStore_Delete hashable self_equal type_name s2 k w
        = Returned (s3, None) w
        ∧ s_data s3 = s_data s2.
Proof.
  intros Hm Hh. eexists _, _. rewrite (Set_run _ _ _ _ _ _ _ _ _ Hm Hh).
  split; [reflexivity|]. rewrite (Delete_run _ _ _ _ _ _ Hh).
  split; [reflexivity|]. cbn [s_data s_c s_sid s_expiry].
  rewrite (Get_run _ _ _ _ _ _ _ Hh). cbn [s_data].
  destruct (self_equal k) eqn:Hse.
  - split; [by rewrite lookup_delete_eq|]. split.
    { intros k' Hne. destruct (hashable k') eqn:Hh'.
      - rewrite !(Get_run _ _ _ _ _ _ _ Hh'); cbn. rewrite Hm. f_equal.
        destruct (self_equal k'); [|done].
        by rewrite lookup_delete_ne, lookup_insert_ne.
      - by rewrite !(Get_unhashable _ _ _ _ _ _ _ Hh'). }
    split.
    { intros _ Habs. rewrite Hm. by rewrite delete_insert_eq, delete_id. }
    split; [done|].
    eexists. rewrite (Delete_run _ _ _ _ _ _ Hh). split; [reflexivity|].
    cbn. rewrite Hse. f_equal. apply delete_id, lookup_delete_eq.
  - split; [done|]. split.
    { intros k' Hne. destruct (hashable k') eqn:Hh'.
      - rewrite !(Get_run _ _ _ _ _ _ _ Hh'); cbn. by rewrite Hm.
      - by rewrite !(Get_unhashable _ _ _ _ _ _ _ Hh'). }
    split; [done|]. split; [done|].
    eexists. rewrite (Delete_run _ _ _ _ _ _ Hh). split; [reflexivity|].
    cbn. by rewrite Hse.
Qed.

(** X3: [Flush] returns a nil error, marks the store dirty and keeps its id
    and expiry.  After it every key that can be hashed reads nil, and a key
    that cannot be hashed still makes [Get] panic; a [Set] that follows,
    with a key that can be hashed and is equal to itself, holds the only
    pair of the map; and the [Release] that follows, when the database runs
    it on an existing row, replaces the row's blob by the encoding of the
    empty map. *)
Theorem Flush_empties_the_session s :
  (MysqlStore_Flush s).2 = None
  ∧ (∀ k w, hashable k = true →
       MysqlStore_Get nil_iface hashable self_equal type_name
         (MysqlStore_Flush s).1 k w
       = Returned nil_iface w)
  ∧ (∀ k w, hashable k = false →
       MysqlStore_Get nil_iface hashable self_equal type_name
         (MysqlStore_Flush s).1 k w
       = Panicked (unhashable type_name k) w)
  ∧ s_dirty (MysqlStore_Flush s).1 = true
  ∧ s_sid (MysqlStore_Flush s).1 = s_sid s
  ∧ s_expiry (MysqlStore_Flush s).1 = s_expiry s
  ∧ (∀ k v w, hashable k = true → self_equal k = true →
       ∃ s',
         MysqlStore_Set hashable self_equal type_name
           (MysqlStore_Flush s).1 k v w
         = Returned (s', None) w
         ∧ s_data s' = Map {[ k := v ]} [])
  ∧ (∀ w h blob r,
       s_c s = Some h → EncodeGob ∅ = inr (blob, None) →
       fault_at 0 w = None → table w !! s_sid s = Some r →
       ∃ s' w',
         Release (MysqlStore_Flush s).1 w = Returned (s', None) w'
         ∧ table w' !! s_sid s = Some (mkRow blob (now w))
         ∧ s_data s' = ∅ ∧ s_dirty s' = false).
Proof.
  split; [done|]. split.
  { intros k w Hh. rewrite (Get_run _ _ _ _ _ _ _ Hh); cbn.
    by destruct (self_equal k). }
  split; [intros k w Hh; by apply Get_unhashable|].
  do 3 (split; [done|]). split.
  { intros k v w Hh Hse. eexists.
    erewrite Set_run; [| reflexivity | done ]. rewrite Hse.
    split; [reflexivity|]. cbn. by rewrite insert_empty. }
  intros w h blob r Hc Henc Hf Hrow. eexists _, _.
  rewrite (Release_write_ok EncodeGob (MysqlStore_Flush s).1 w h blob);
    [| by left | done | done | done ].
  split; [reflexivity|]. cbn. rewrite Hrow.
  by rewrite lookup_insert_eq.
Qed.

(** *** Release, again and together *)

(** X4: whatever a write-back's update did, a second [Release] that reads
    the clock at most 60 seconds later sends nothing and returns nil: after a
    refused update the session's changes are not written again. *)
Theorem Release_twice_second_is_skipped s w h blob :
  s_dirty s = true ∨ add64 (s_expiry s) 60 < now w →
  s_c s = Some h →
  EncodeGob (s_data s) = inr (blob, None) →
  clock w (S (reads w)) <= add64 (now w) 60 →
  ∃ s1 err1 w1,
    Release s w = Returned (s1, err1) w1
    ∧ err1 = (DriverError <$> fault_at 0 w)
    ∧ ∃ w2,
        Release s1 w1 = Returned (s1, None) w2
        ∧ trace w2 = trace w ++ [UPDATE_data_expiry blob (now w) (s_sid s)]
        ∧ table w2 = table w1.
Proof.
  intros Hns Hc Henc Hclock.
  destruct (fault_at 0 w) as [msg|] eqn:Hf.
  - eexists _, _, _.
    rewrite (Release_write_fault EncodeGob _ _ _ _ _ Hns Hc Henc Hf).
    split; [reflexivity|]. split; [done|].
    eexists. rewrite Release_skip; [|done|exact Hclock]. done.
  - eexists _, _, _.
    rewrite (Release_write_ok EncodeGob _ _ _ _ Hns Hc Henc Hf).
    split; [reflexivity|]. split; [done|].
    eexists. rewrite Release_skip; [|done|exact Hclock]. done.
Qed.

(** X5: [Release] never creates a row.  When the store's row is gone the
    update matches nothing: the call returns nil, clears the dirty flag and
    leaves the table as it was. *)
Theorem Release_without_row_writes_nothing s w h blob :
  s_dirty s = true ∨ add64 (s_expiry s) 60 < now w →
  s_c s = Some h →
  EncodeGob (s_data s) = inr (blob, None) →
  fault_at 0 w = None →
  table w !! s_sid s = None →
  ∃ s' w',
    Release s w = Returned (s', None) w'
    ∧ table w' = table w
    ∧ s_dirty s' = false
    ∧ trace w' = trace w ++ [UPDATE_data_expiry blob (now w) (s_sid s)].
Proof.
  intros Hns Hc Henc Hf Hrow. eexists _, _.
  rewrite (Release_write_ok EncodeGob _ _ _ _ Hns Hc Henc Hf).
  split; [reflexivity|]. cbn. by rewrite Hrow.
Qed.

(** X6: two stores of one session, both changed: the row ends up with the
    blob of the one released last, stamped with its release time; the first
    store's write is overwritten and no other row is touched. *)
Theorem Release_last_write_wins s1 s2 w h1 h2 blob1 blob2 r :
  s_sid s2 = s_sid s1 →
  s_dirty s1 = true → s_dirty s2 = true →
  s_c s1 = Some h1 → s_c s2 = Some h2 →
  EncodeGob (s_data s1) = inr (blob1, None) →
  EncodeGob (s_data s2) = inr (blob2, None) →
  fault_at 0 w = None → fault_at 1 w = None →
  table w !! s_sid s1 = Some r →
  ∃ s1' w1 s2' w2,
    Release s1 w = Returned (s1', None) w1
    ∧ Release s2 w1 = Returned (s2', None) w2
    ∧ table w1 !! s_sid s1 = Some (mkRow blob1 (now w))
    ∧ table w2 !! s_sid s1 = Some (mkRow blob2 (now w1))
    ∧ ∀ k, k ≠ s_sid s1 → table w2 !! k = table w !! k.
Proof.
  intros Hsid Hd1 Hd2 Hc1 Hc2 Henc1 Henc2 Hf0 Hf1 Hrow.
  eexists _, _, _, _.
  rewrite (Release_write_ok EncodeGob s1 w h1 blob1) by (done || by left).
  split; [reflexivity|].
  rewrite (Release_write_ok EncodeGob s2 _ h2 blob2);
    [| by left | done | done | by autorewrite with calls ].
  split; [reflexivity|]. cbn. rewrite Hsid, Hrow.
  rewrite (lookup_insert_eq (table w)).
  split; [done|]. split; [apply lookup_insert_eq|].
  intros k Hne. by rewrite !lookup_insert_ne.
Qed.

(** X7: a write-back touches the store's own row at most.  With a live
    handle [Release] either returns, for every result the codec and the
    database give, with the map and the id of the store kept and with the
    set of session ids and all the other rows as they were; or the encoder
    panics, and then nothing has been sent and the table is unchanged. *)
Theorem Release_touches_own_row_only s w h :
  s_c s = Some h →
  (∃ s' err w',
     MysqlStore_Release EncodeGob s w = Returned (s', err) w'
     ∧ s_data s' = s_data s ∧ s_sid s' = s_sid s
     ∧ dom (table w') = dom (table w)
     ∧ ∀ k, k ≠ s_sid s → table w' !! k = table w !! k)
  ∨ (∃ msg w',
       EncodeGob (s_data s) = inl msg
       ∧ MysqlStore_Release EncodeGob s w = Panicked msg w'
       ∧ table w' = table w ∧ trace w' = trace w).
Proof.
  intros Hc.
  destruct (negb (s_dirty s) && (now w <=? add64 (s_expiry s) 60)) eqn:Hskip.
  - apply andb_true_iff in Hskip as [Hd Hfresh].
    apply negb_true_iff in Hd. apply Z.leb_le in Hfresh.
    left. eexists _, _, _. by rewrite Release_skip.
  - assert (Hns : s_dirty s = true ∨ add64 (s_expiry s) 60 < now w).
    { apply andb_false_iff in Hskip as [Hd | Hstale].
      - left. by apply negb_false_iff.
      - right. by apply Z.leb_gt. }
    destruct (EncodeGob (s_data s)) as [msg | [blob [e|]]] eqn:Henc.
    + right. eexists _, _. split; [reflexivity|].
      by rewrite (Release_encode_panic EncodeGob _ _ _ Hns Henc).
    + left. eexists _, _, _.
      by rewrite (Release_encode_error EncodeGob _ _ _ _ Hns Henc).
    + left. destruct (fault_at 0 w) as [msg|] eqn:Hf.
      * eexists _, _, _.
        by rewrite (Release_write_fault EncodeGob _ _ _ _ _ Hns Hc Henc Hf).
      * eexists _, _, _.
        rewrite (Release_write_ok EncodeGob _ _ _ _ Hns Hc Henc Hf).
        split; [reflexivity|]. cbn. do 2 (split; [done|]).
        destruct (table w !! s_sid s) as [r|] eqn:Hrow; [|done]. split.
        -- by apply dom_insert_lookup_L.
        -- intros k Hne. by rewrite lookup_insert_ne.
Qed.

(** X8: the skip test adds 60 in int64.  For an expiry within 60 of the
    largest int64 the sum wraps to a negative number, so that even a clean
    store is written back at every [Release] made at a time that is not
    before the epoch. *)
Theorem Release_expiry_overflow_is_written s w h blob :
  int64_range (s_expiry s) →
  2 ^ 63 <= s_expiry s + 60 →
  0 <= now w →
  s_c s = Some h →
  EncodeGob (s_data s) = inr (blob, None) →
  add64 (s_expiry s) 60 = s_expiry s + 60 - 2 ^ 64
  ∧ ∃ s' err w',
      Release s w = Returned (s', err) w'
      ∧ trace w' = trace w ++ [UPDATE_data_expiry blob (now w) (s_sid s)].
Proof.
  intros Hr Hover Hnow Hc Henc.
  assert (Hsum : add64 (s_expiry s) 60 = s_expiry s + 60 - 2 ^ 64).
  { unfold add64, wrap64, int64_range in *.
    replace (s_expiry s + 60 + 2 ^ 63)
      with (s_expiry s + 60 - 2 ^ 63 + 1 * 2 ^ 64) by lia.
    rewrite Z_mod_plus_full, Z.mod_small; lia. }
  split; [done|].
  assert (Hns : s_dirty s = true ∨ add64 (s_expiry s) 60 < now w).
  { right. rewrite Hsum. unfold int64_range in Hr. lia. }
  destruct (fault_at 0 w) as [msg|] eqn:Hf.
  - eexists _, _, _.
    by rewrite (Release_write_fault EncodeGob _ _ _ _ _ Hns Hc Henc Hf).
  - eexists _, _, _.
    by rewrite (Release_write_ok EncodeGob _ _ _ _ Hns Hc Henc Hf).
Qed.

(** *** Calls that always return *)

Lemma Exec_returns h q w :
  ∃ err w', Exec (Some h) q w = Returned err w'.
Proof.
  unfold Exec. destruct (fault_at 0 w); [by eexists _, _|].
  destruct (exec_stmt q (unix_timestamp w) (table w)); by eexists _, _.
Qed.

Lemma Exist_returns p h sid w :
  p_c p = Some h →
  ∃ b w', MysqlProvider_Exist p sid w = Returned b w' ∧ table w' = table w.
Proof.
  intros Hc. rewrite (Exist_run _ _ _ _ Hc).
  destruct (fault_at 0 w); [destruct (fault_at 1 w)|]; by eexists _, _.
Qed.

Lemma Destory_run p h sid w :
  p_c p = Some h →
  MysqlProvider_Destory p sid w =
    match fault_at 0 w with
    | Some msg => Returned (Some (DriverError msg)) (sent (DELETE_key sid) w)
    | None =>
        Returned None
          (set_table (delete sid (table w)) (sent (DELETE_key sid) w))
    end.
Proof.
  intros Hc. unfold MysqlProvider_Destory, Exec. rewrite Hc.
  by destruct (fault_at 0 w).
Qed.

Lemma Count_run p h w :
  p_c p = Some h → fault_at 0 w = None →
  MysqlProvider_Count p w =
    Returned (Z.of_nat (size (table w))) (sent SELECT_COUNT w).
Proof.
  intros Hc Hf. unfold MysqlProvider_Count, mbind, M_bind. rewrite Hc.
  by rewrite (QueryRow_Scan_run _ _ _ Hf).
Qed.

(** Every way [Read] can end, for a live handle. *)
Lemma Read_outcome p h sid w :
  p_c p = Some h →
  ∃ res w',
    Read p sid w = Returned res w'
    ∧ ((∃ s, res = (Some s, None)
             ∧ s_sid s = sid ∧ s_dirty s = false ∧ s_c s = Some h
             ∧ is_Some (table w' !! sid))
       ∨ (∃ e, res = (None, Some e) ∧ table w' = table w))
    ∧ (∀ k, k ≠ sid → table w' !! k = table w !! k)
    ∧ (is_Some (table w !! sid) → table w' = table w).
Proof.
  intros Hc. destruct (fault_at 0 w) as [m0|] eqn:Hf0.
  { rewrite (Read_query_fault DecodeGob _ _ _ _ _ Hc Hf0).
    eexists _, _. split; [reflexivity|]. split; [right; by eexists|done]. }
  destruct (table w !! sid) as [r|] eqn:Hrow.
  - rewrite (Read_found DecodeGob _ _ _ _ _ Hc Hrow Hf0).
    eexists _, _. split; [reflexivity|]. cbn. split; [|done].
    destruct (decide (length (row_data r) = 0%nat)).
    + left. eexists. by rewrite Hrow.
    + destruct (DecodeGob (row_data r)) as [kv [e|]].
      * right. by eexists.
      * left. eexists. by rewrite Hrow.
  - rewrite (Read_fresh DecodeGob _ _ _ _ Hc Hrow Hf0).
    destruct (fault_at 1 w) as [m1|] eqn:Hf1; cbn zeta.
    + eexists _, _. split; [reflexivity|]. cbn.
      split; [right; by eexists|]. split; [done|]. by intros [? ?].
    + eexists _, _. split; [reflexivity|]. cbn. split.
      * left. eexists. by rewrite lookup_insert_eq.
      * split; [|by intros [? ?]]. intros k Hne. by rewrite lookup_insert_ne.
Qed.

(** *** A provider that was never initialised *)

(** X9: on a provider whose handle is nil, as the one registered at start-up
    is until [Init] has run, every operation panics with a nil dereference;
    nothing reaches the database and nothing is logged. *)
Theorem provider_without_handle_panics p sid oldsid w :
  p_c p = None →
  Read p sid w = Panicked nil_dereference (tick w)
  ∧ MysqlProvider_Exist p sid w = Panicked nil_dereference w
  ∧ MysqlProvider_Destory p sid w = Panicked nil_dereference w
  ∧ Regenerate p oldsid sid w = Panicked nil_dereference w
  ∧ MysqlProvider_Count p w = Panicked nil_dereference w
  ∧ MysqlProvider_GC p w = Panicked nil_dereference w.
Proof.
  intros Hc.
  unfold MysqlProvider_Read, MysqlProvider_Regenerate, MysqlProvider_Exist,
    MysqlProvider_queryExists, MysqlProvider_Destory, MysqlProvider_Count,
    MysqlProvider_GC, mbind, M_bind, time_Now_Unix.
  by rewrite Hc.
Qed.

(** *** Destory *)

(** X10: [Destory] sends one delete.  When the database runs it the call
    returns nil, the id has no row afterwards and every other row is as it
    was, so that destroying an id without a row changes nothing; when the
    database refuses it the driver's error is returned and the table is
    unchanged. *)
Theorem Destory_removes_the_row p h sid w :
  p_c p = Some h →
  ∃ err w',
    MysqlProvider_Destory p sid w = Returned err w'
    ∧ trace w' = trace w ++ [DELETE_key sid]
    ∧ (fault_at 0 w = None →
       err = None
       ∧ table w' !! sid = None
       ∧ (∀ k, k ≠ sid → table w' !! k = table w !! k)
       ∧ (table w !! sid = None → table w' = table w))
    ∧ (∀ msg, fault_at 0 w = Some msg →
       err = Some (DriverError msg) ∧ table w' = table w).
Proof.
  intros Hc. rewrite (Destory_run _ _ _ _ Hc).
  destruct (fault_at 0 w) as [m|] eqn:Hf; eexists _, _;
    (split; [reflexivity|]); cbn; (split; [done|]).
  - split; [done|]. by intros msg [= <-].
  - split; [|done]. intros _. split; [done|].
    split; [apply lookup_delete_eq|]. split.
    + intros k Hne. by rewrite lookup_delete_ne.
    + intros Habs. by apply delete_id.
Qed.

(** X11: a [Read] after a [Destory] starts the session anew: whatever the
    row held, the store that comes back is clean and empty, with the current
    time as expiry, over a row with an empty blob. *)
Theorem Destory_then_Read_starts_anew p h sid w :
  p_c p = Some h →
  fault_at 0 w = None → fault_at 1 w = None → fault_at 2 w = None →
  ∃ w1 s w2,
    MysqlProvider_Destory p sid w = Returned None w1
    ∧ Read p sid w1 = Returned (Some s, None) w2
    ∧ s_data s = ∅ ∧ s_expiry s = now w ∧ s_dirty s = false
    ∧ table w2 !! sid = Some (mkRow [] (now w))
    ∧ ∀ k, k ≠ sid → table w2 !! k = table w !! k.
Proof.
  intros Hc Hf0 Hf1 Hf2. rewrite (Destory_run _ _ _ _ Hc), Hf0.
  eexists _, _, _. split; [reflexivity|].
  rewrite (Read_fresh DecodeGob _ h);
    [| done | apply lookup_delete_eq | by autorewrite with calls ].
  autorewrite with calls. rewrite Hf2. cbn.
  split; [reflexivity|]. do 3 (split; [done|]).
  split; [apply lookup_insert_eq|].
  intros k Hne. cbn. by rewrite lookup_insert_ne, lookup_delete_ne.
Qed.

(** *** Read *)

(** X12: [Read] of an id that has a row sends the one select and leaves the
    table alone.  The store it returns is clean and carries the row's expiry,
    not the current time; its map is empty for an empty blob and is the
    decoded map otherwise. *)
Theorem Read_loads_the_row p h sid w r :
  p_c p = Some h →
  table w !! sid = Some r →
  fault_at 0 w = None →
  (row_data r = [] →
   ∃ w', Read p sid w
         = Returned (Some (mkStore (Some h) sid ∅ (row_expiry r) false), None)
                    w'
         ∧ table w' = table w
         ∧ trace w' = trace w ++ [SELECT_data_expiry sid])
  ∧ (∀ kv, row_data r ≠ [] → DecodeGob (row_data r) = (kv, None) →
     ∃ w', Read p sid w
           = Returned (Some (mkStore (Some h) sid kv (row_expiry r) false),
                       None) w'
           ∧ table w' = table w
           ∧ trace w' = trace w ++ [SELECT_data_expiry sid]).
Proof.
  intros Hc Hrow Hf. rewrite (Read_found DecodeGob _ _ _ _ _ Hc Hrow Hf). split.
  - intros ->. by eexists.
  - intros kv Hne ->. rewrite decide_False; [by eexists|].
    by destruct (row_data r).
Qed.

(** X13: with a live handle [Read] never panics and returns either a store
    and a nil error or no store and an error.  A returned store is clean,
    bears the requested id and the provider's handle, and its id has a row
    from then on, so that [Exist] answers [true] when its query runs.  On an
    error the table is unchanged.  In every case the rows of the other ids
    are untouched and an existing row is never rewritten. *)
Theorem Read_store_or_error p h sid w :
  p_c p = Some h →
  ∃ res w',
    Read p sid w = Returned res w'
    ∧ ((∃ s, res = (Some s, None)
             ∧ s_sid s = sid ∧ s_dirty s = false ∧ s_c s = p_c p
             ∧ (fault_at 0 w' = None →
                ∃ w'', MysqlProvider_Exist p sid w' = Returned true w''))
       ∨ (∃ e, res = (None, Some e) ∧ table w' = table w))
    ∧ (∀ k, k ≠ sid → table w' !! k = table w !! k)
    ∧ (is_Some (table w !! sid) → table w' = table w).
Proof.
  intros Hc.
  destruct (Read_outcome p h sid w Hc) as (res & w' & Hrun & Hres & Hrest).
  exists res, w'. split; [done|]. split; [|done].
  destruct Hres as [(s & -> & Hsid & Hd & Hcs & Hrow) | Herr]; [|by right].
  left. exists s. rewrite Hc. do 4 (split; [done|]).
  intros Hf. rewrite (Exist_run _ _ _ _ Hc), Hf.
  rewrite bool_decide_eq_true_2 by done. by eexists.
Qed.

(** X14: two [Read]s of a new id in a row: the first inserts the row, the
    second finds it, sends no insert, and returns the same store as the
    first, with the expiry of the first although its own clock reading is
    later. *)
Theorem Read_twice_same_session p h sid w :
  p_c p = Some h →
  table w !! sid = None →
  fault_at 0 w = None → fault_at 1 w = None → fault_at 2 w = None →
  ∃ s w1 w2,
    Read p sid w = Returned (Some s, None) w1
    ∧ Read p sid w1 = Returned (Some s, None) w2
    ∧ s_data s = ∅ ∧ s_expiry s = now w
    ∧ table w2 = table w1
    ∧ trace w2 = trace w ++ [SELECT_data_expiry sid;
                             INSERT_row sid [] (now w);
                             SELECT_data_expiry sid].
Proof.
  intros Hc Hrow Hf0 Hf1 Hf2.
  rewrite (Read_fresh DecodeGob _ _ _ _ Hc Hrow Hf0), Hf1. cbn zeta.
  eexists _, _, _. split; [reflexivity|].
  rewrite (Read_found DecodeGob _ h _ _ (mkRow [] (now w)));
    [| done | apply lookup_insert_eq | by autorewrite with calls ].
  cbn. split; [reflexivity|]. do 3 (split; [done|]).
  cbn. by rewrite <- !app_assoc.
Qed.

(** X15: what [Release] writes, [Read] gives back.  For a store with a row,
    whose map encodes to a non-empty blob that decodes to the same map, the
    write-back followed by a [Read] of the id returns a clean store with
    that map and with the time of the write-back as expiry. *)
Theorem Release_then_Read_round_trip s p w h h' blob r :
  s_dirty s = true ∨ add64 (s_expiry s) 60 < now w →
  s_c s = Some h → p_c p = Some h' →
  table w !! s_sid s = Some r →
  EncodeGob (s_data s) = inr (blob, None) →
  blob ≠ [] →
  DecodeGob blob = (s_data s, None) →
  fault_at 0 w = None → fault_at 1 w = None →
  ∃ s1 w1 s2 w2,
    Release s w = Returned (s1, None) w1
    ∧ Read p (s_sid s) w1 = Returned (Some s2, None) w2
    ∧ s_data s2 = s_data s
    ∧ s_expiry s2 = now w ∧ s_expiry s2 = s_expiry s1
    ∧ s_dirty s2 = false
    ∧ table w2 = table w1.
Proof.
  intros Hns Hc Hpc Hrow Henc Hne Hdec Hf0 Hf1.
  rewrite (Release_write_ok EncodeGob _ _ _ _ Hns Hc Henc Hf0).
  eexists _, _, _, _. split; [reflexivity|].
  rewrite (Read_found DecodeGob _ h' _ _ (mkRow blob (now w)));
    [| done | cbn; rewrite Hrow; apply lookup_insert_eq
     | by autorewrite with calls ].
  cbn [row_data row_expiry]. rewrite decide_False by (by destruct blob).
  rewrite Hdec. done.
Qed.

(** *** Count, with the other operations *)

(** X16: [Count] follows the table: after a [Read] that created the row it
    is one more than the number of rows before, after a [Read] of an id that
    had a row it is that number, and after a [Destory] of an id that had a
    row it is one less. *)
Theorem Count_follows_Read_and_Destory p h sid w :
  p_c p = Some h →
  (table w !! sid = None →
   fault_at 0 w = None → fault_at 1 w = None → fault_at 2 w = None →
   ∃ res w1 w2,
     Read p sid w = Returned res w1
     ∧ MysqlProvider_Count p w1
       = Returned (Z.of_nat (size (table w)) + 1) w2)
  ∧ (is_Some (table w !! sid) → fault_at 1 w = None →
     ∃ res w1 w2,
       Read p sid w = Returned res w1
       ∧ MysqlProvider_Count p w1 = Returned (Z.of_nat (size (table w))) w2)
  ∧ (is_Some (table w !! sid) →
     fault_at 0 w = None → fault_at 1 w = None →
     ∃ w1 w2,
       MysqlProvider_Destory p sid w = Returned None w1
       ∧ MysqlProvider_Count p w1
         = Returned (Z.of_nat (size (table w)) - 1) w2).
Proof.
  intros Hc. split; [|split].
  - intros Hrow Hf0 Hf1 Hf2.
    rewrite (Read_fresh DecodeGob _ _ _ _ Hc Hrow Hf0), Hf1. cbn zeta.
    eexists _, _, _. split; [reflexivity|].
    rewrite (Count_run _ _ _ Hc) by (by autorewrite with calls). cbn.
    rewrite map_size_insert_None by done. f_equal. lia.
  - intros [r Hrow] Hf1.
    destruct (fault_at 0 w) as [m0|] eqn:Hf0.
    + rewrite (Read_query_fault DecodeGob _ _ _ _ _ Hc Hf0).
      eexists _, _, _. split; [reflexivity|].
      by rewrite (Count_run _ _ _ Hc) by (by autorewrite with calls).
    + rewrite (Read_found DecodeGob _ _ _ _ _ Hc Hrow Hf0).
      eexists _, _, _. split; [reflexivity|].
      by rewrite (Count_run _ _ _ Hc) by (by autorewrite with calls).
  - intros Hrow Hf0 Hf1. rewrite (Destory_run _ _ _ _ Hc), Hf0.
    eexists _, _. split; [reflexivity|].
    rewrite (Count_run _ _ _ Hc) by (by autorewrite with calls). cbn.
    rewrite map_size_delete_Some by done. f_equal.
    destruct Hrow as [r Hrow].
    assert (size (table w) ≠ 0%nat)
      by (apply map_size_ne_0_lookup_2 with sid; by eexists).
    lia.
Qed.

(** *** Regenerate *)

Lemma Regenerate_renamed p h oldsid sid w r :
  p_c p = Some h →
  table w !! sid = None → table w !! oldsid = Some r →
  fault_at 0 w = None → fault_at 1 w = None → fault_at 2 w = None →
  fault_at 3 w = None →
  Regenerate p oldsid sid w =
    Returned
      (if decide (length (row_data r) = 0%nat) then
         (Some (NewMysqlStore (Some h) sid ∅ (row_expiry r)), None)
       else
         match DecodeGob (row_data r) with
         | (_, Some e) => (None, Some e)
         | (kv, None) =>
             (Some (NewMysqlStore (Some h) sid kv (row_expiry r)), None)
         end)
      (sent (SELECT_data_expiry sid)
         (tick
            (set_table (<[sid := r]> (delete oldsid (table w)))
               (sent (UPDATE_key sid oldsid)
                  (sent (SELECT_data oldsid) (sent (SELECT_data sid) w)))))).
Proof.
  intros Hc Hnew Hold Hf0 Hf1 Hf2 Hf3.
  assert (Hne : sid ≠ oldsid) by (intros ->; congruence).
  rewrite (Regenerate_free DecodeGob _ _ _ _ _ Hc Hnew Hf0).
  rewrite (rotate_rename DecodeGob _ _ _ _ _ r Hc)
    by (done || by autorewrite with calls).
  autorewrite with calls. cbn [table sent set_faults add_trace].
  rewrite Hf2, Hnew.
  rewrite (Read_found DecodeGob _ h _ _ r);
    [done | done | apply lookup_insert_eq | by autorewrite with calls ].
Qed.

(** X17: [Regenerate] keeps the session.  With the new id free, the old id
    on a row and the four statements run, the row is now under the new id
    with its blob and expiry, the old id has no row, no other row has
    changed, the number of rows is the same, and the store returned is the
    one a [Read] of the old id would have given, under the new id. *)
Theorem Regenerate_keeps_the_session p h oldsid sid w r kv :
  p_c p = Some h →
  table w !! sid = None → table w !! oldsid = Some r →
  fault_at 0 w = None → fault_at 1 w = None → fault_at 2 w = None →
  fault_at 3 w = None →
  (row_data r = [] ∧ kv = ∅)
  ∨ (row_data r ≠ [] ∧ DecodeGob (row_data r) = (kv, None)) →
  ∃ w',
    Regenerate p oldsid sid w
    = Returned (Some (mkStore (Some h) sid kv (row_expiry r) false), None) w'
    ∧ table w' !! sid = Some r
    ∧ table w' !! oldsid = None
    ∧ (∀ k, k ≠ sid → k ≠ oldsid → table w' !! k = table w !! k)
    ∧ size (table w') = size (table w)
    ∧ trace w' = trace w ++ [SELECT_data sid; SELECT_data oldsid;
                             UPDATE_key sid oldsid; SELECT_data_expiry sid].
Proof.
  intros Hc Hnew Hold Hf0 Hf1 Hf2 Hf3 Hblob.
  assert (Hne : sid ≠ oldsid) by (intros ->; congruence).
  rewrite (Regenerate_renamed _ _ _ _ _ _ Hc Hnew Hold Hf0 Hf1 Hf2 Hf3).
  eexists. split.
  { f_equal. destruct Hblob as [[-> ->] | [Hdata ->]]; [done|].
    rewrite decide_False; [done|]. by destruct (row_data r). }
  cbn. split; [apply lookup_insert_eq|]. split.
  { rewrite lookup_insert_ne by done. apply lookup_delete_eq. }
  split.
  { intros k Hk1 Hk2. by rewrite lookup_insert_ne, lookup_delete_ne. }
  split.
  { rewrite map_size_insert_None
      by (by rewrite lookup_delete_ne).
    rewrite map_size_delete_Some by done.
    assert (size (table w) ≠ 0%nat)
      by (apply map_size_ne_0_lookup_2 with oldsid; by eexists).
    lia. }
  by rewrite <- !app_assoc.
Qed.

(** X18: renaming there and back.  [Regenerate] from the old id to a free
    new id, followed by [Regenerate] from the new id to the old one, leaves
    the table as it was, whatever the row's blob decodes to. *)
Theorem Regenerate_there_and_back p h oldsid sid w r :
  p_c p = Some h →
  table w !! sid = None → table w !! oldsid = Some r →
  (∀ i, (i < 8)%nat → fault_at i w = None) →
  ∃ res1 w1 res2 w2,
    Regenerate p oldsid sid w = Returned res1 w1
    ∧ Regenerate p sid oldsid w1 = Returned res2 w2
    ∧ res2.2 = res1.2
    ∧ table w1 !! sid = Some r ∧ table w1 !! oldsid = None
    ∧ table w2 = table w.
Proof.
  intros Hc Hnew Hold Hf.
  assert (Hne : sid ≠ oldsid) by (intros ->; congruence).
  rewrite (Regenerate_renamed _ _ _ _ _ _ Hc Hnew Hold)
    by (apply Hf; lia).
  eexists _, _, _, _. split; [reflexivity|].
  rewrite (Regenerate_renamed p h sid oldsid _ r Hc);
    [| cbn; rewrite lookup_insert_ne by done; apply lookup_delete_eq
     | cbn; apply lookup_insert_eq
     | autorewrite with calls; apply Hf; lia ..].
  split; [reflexivity|]. cbn [table sent set_faults add_trace tick set_table].
  split.
  { destruct (decide (length (row_data r) = 0%nat)); [done|].
    by destruct (DecodeGob (row_data r)) as [kv [e|]]. }
  split; [apply lookup_insert_eq|]. split.
  { rewrite lookup_insert_ne by done. apply lookup_delete_eq. }
  rewrite delete_insert_eq, (delete_id (delete oldsid (table w)))
    by (by rewrite lookup_delete_ne).
  rewrite insert_delete_eq. by apply insert_id.
Qed.

Lemma Exec_INSERT_frame h k d e w :
  ∃ err w',
    Exec (Some h) (INSERT_row k d e) w = Returned err w'
    ∧ ∀ k', k' ≠ k → table w' !! k' = table w !! k'.
Proof.
  unfold Exec. destruct (fault_at 0 w); [by eexists _, _|]. cbn.
  destruct (table w !! k); eexists _, _; (split; [reflexivity|]); [done|].
  intros k' Hne. cbn. by rewrite lookup_insert_ne.
Qed.

Lemma Exec_UPDATE_key_frame h newk oldk w :
  ∃ err w',
    Exec (Some h) (UPDATE_key newk oldk) w = Returned err w'
    ∧ ∀ k', k' ≠ newk → k' ≠ oldk → table w' !! k' = table w !! k'.
Proof.
  unfold Exec. destruct (fault_at 0 w); [by eexists _, _|]. cbn.
  destruct (table w !! oldk); [|by eexists _, _].
  destruct (decide (newk = oldk)); [by eexists _, _|].
  destruct (table w !! newk); [by eexists _, _|].
  eexists _, _. split; [reflexivity|].
  intros k' Hn Ho. cbn. by rewrite lookup_insert_ne, lookup_delete_ne.
Qed.

(** X19: with a live handle [Regenerate] never panics, whatever the
    database does: it returns either a store and a nil error or no store and
    an error.  A returned store is clean and bears the new id, which has a
    row from then on; and the rows of all ids other than the two given are
    as they were. *)
Theorem Regenerate_store_or_error p h oldsid sid w :
  p_c p = Some h →
  ∃ res w',
    MysqlProvider_Regenerate DecodeGob p oldsid sid w = Returned res w'
    ∧ ((∃ s, res = (Some s, None)
             ∧ s_sid s = sid ∧ s_dirty s = false
             ∧ is_Some (table w' !! sid))
       ∨ (∃ e, res = (None, Some e)))
    ∧ ∀ k, k ≠ sid → k ≠ oldsid → table w' !! k = table w !! k.
Proof.
  intros Hc. unfold MysqlProvider_Regenerate, mbind at 1, M_bind at 1.
  destruct (Exist_returns p h sid w Hc) as (taken & w1 & -> & Ht1).
  destruct taken.
  { eexists _, _. split; [reflexivity|]. split; [right; by eexists|].
    intros k _ _. by rewrite Ht1. }
  unfold mbind at 1, M_bind at 1.
  destruct (Exist_returns p h oldsid w1 Hc) as (present & w2 & -> & Ht2).
  assert (Hstep : ∃ err w3,
            (if negb present
             then time_Now_Unix ≫= λ t, Exec (p_c p) (INSERT_row oldsid [] t)
             else mret None) w2 = Returned err w3
            ∧ ∀ k, k ≠ oldsid → table w3 !! k = table w !! k).
  { destruct present; cbn [negb].
    - eexists _, _. split; [reflexivity|]. intros k _. by rewrite Ht2, Ht1.
    - unfold mbind, M_bind, time_Now_Unix. rewrite Hc.
      destruct (Exec_INSERT_frame h oldsid [] (now w2) (tick w2))
        as (err & w3 & -> & Hfr).
      eexists _, _. split; [reflexivity|].
      intros k Hne. rewrite (Hfr k Hne). cbn. by rewrite Ht2, Ht1. }
  destruct Hstep as (err & w3 & Hrun & Ht3).
  unfold mbind at 1, M_bind at 1. rewrite Hrun.
  destruct err as [e|].
  { eexists _, _. split; [reflexivity|]. split; [right; by eexists|].
    intros k _ Hk. by apply Ht3. }
  unfold mbind at 1, M_bind at 1. rewrite Hc.
  destruct (Exec_UPDATE_key_frame h sid oldsid w3) as (err & w4 & -> & Ht4).
  destruct err as [e|].
  { eexists _, _. split; [reflexivity|]. split; [right; by eexists|].
    intros k Hk1 Hk2. rewrite (Ht4 k Hk1 Hk2). by apply Ht3. }
  destruct (Read_outcome p h sid w4 Hc)
    as (res & w5 & -> & Hres & Hfr & _).
  eexists _, _. split; [reflexivity|]. split.
  - destruct Hres as [(s & -> & Hsid & Hd & _ & Hrow) | (e & -> & _)].
    + left. by exists s.
    + right. by eexists.
  - intros k Hk1 Hk2. rewrite (Hfr k Hk1), (Ht4 k Hk1 Hk2). by apply Ht3.
Qed.

(** *** GC and the expiry a write-back leaves *)

(** X20: a write-back renews the session's lease.  After a [Release] that
    wrote the row at time [now], the sweep that follows keeps the row, with
    the blob just written, as long as the server clock is before
    [now + expire], and removes it from then on. *)
Theorem GC_after_Release s p w h h' blob r :
  s_dirty s = true ∨ add64 (s_expiry s) 60 < now w →
  s_c s = Some h → p_c p = Some h' →
  EncodeGob (s_data s) = inr (blob, None) →
  table w !! s_sid s = Some r →
  fault_at 0 w = None → fault_at 1 w = None →
  ∃ s1 w1 w2,
    Release s w = Returned (s1, None) w1
    ∧ MysqlProvider_GC p w1 = Returned tt w2
    ∧ (unix_timestamp w < now w + p_expire p →
       table w2 !! s_sid s = Some (mkRow blob (now w)))
    ∧ (now w + p_expire p <= unix_timestamp w →
       table w2 !! s_sid s = None).
Proof.
  intros Hns Hc Hpc Henc Hrow Hf0 Hf1.
  rewrite (Release_write_ok EncodeGob _ _ _ _ Hns Hc Henc Hf0).
  eexists _, _, _. split; [reflexivity|].
  rewrite (GC_run _ _ _ Hpc). cbn zeta. autorewrite with calls. rewrite Hf1.
  split; [reflexivity|]. cbn. rewrite Hrow. split.
  - intros Hlive. apply lookup_kept. split; [apply lookup_insert_eq|].
    cbn. lia.
  - intros Hdead.
    destruct (filter _ _ !! s_sid s) as [r'|] eqn:Hkept; [|done].
    apply lookup_kept in Hkept as [Hin Hlive].
    rewrite lookup_insert_eq in Hin. injection Hin as <-. cbn in Hlive. lia.
Qed.

(** X21: the sweep never hurts a live session: whatever the database does,
    [GC] adds no row, changes no row, and keeps every row with
    [expiry + expire] after the server clock. *)
Theorem GC_keeps_live_rows p h w :
  p_c p = Some h →
  ∃ w',
    MysqlProvider_GC p w = Returned tt w'
    ∧ table w' ⊆ table w
    ∧ (∀ k r, table w !! k = Some r →
              unix_timestamp w < row_expiry r + p_expire p →
              table w' !! k = Some r)
    ∧ (size (table w') ≤ size (table w))%nat.
Proof.
  intros Hc. rewrite (GC_run _ _ _ Hc). cbn zeta.
  assert (Hkeep : ∀ k r, table w !! k = Some r →
            unix_timestamp w < row_expiry r + p_expire p →
            filter (λ kr, expired (p_expire p) (unix_timestamp w) kr.2 = false)
                   (table w) !! k = Some r).
  { intros k r Hin Hlive. apply lookup_kept. split; [done|lia]. }
  destruct (fault_at 0 w); [destruct (fault_at 1 w)|]; eexists;
    (split; [reflexivity|]); cbn.
  - done.
  - split; [apply map_filter_subseteq|]. split; [done|].
    apply map_subseteq_size, map_filter_subseteq.
  - split; [apply map_filter_subseteq|]. split; [done|].
    apply map_subseteq_size, map_filter_subseteq.
Qed.

(** *** Init when the database opens *)

(** X22: when [sql.Open] hands out a handle without error, [Init] returns
    what [Ping] returns, and in both cases the provider holds the handle and
    the expiry given, the pool's connection lifetime is set to
    [time.Second * sessionConnMaxLifetime], or to zero if that is negative,
    and the session table has not been touched. *)
Theorem Init_configures_the_provider p expire connStr w h :
  sql_Open_result w "mysql" connStr = (Some h, None) →
  ∃ err w',
    Init p expire connStr w = Returned (mkProvider (Some h) expire, err) w'
    ∧ err = (DriverError <$> fault_at 0 w)
    ∧ connMaxLifetime w' = Z.max 0 (mul64 time_Second sessionConnMaxLifetime)
    ∧ 0 <= connMaxLifetime w'
    ∧ table w' = table w ∧ trace w' = trace w ∧ logs w' = logs w.
Proof.
  intros Hopen.
  unfold MysqlProvider_Init, mbind, M_bind, sql_Open. rewrite Hopen. cbn.
  eexists _, _. split; [reflexivity|]. cbn. repeat split; lia.
Qed.

End Further.

(** * The further properties on sample inputs *)

(** An integer key, and twice the NaN. *)
Lemma Set_changes_one_key_witness :
  (∃ s',
     MysqlStore_Set go_hashable go_self_equal go_type_name
       sample_go_store (Int 3) (Int 4) (sample_world ∅ [])
     = Returned (s', None) (sample_world ∅ [])
     ∧ MysqlStore_Get Nil go_hashable go_self_equal go_type_name
         s' (Int 1) (sample_world ∅ [])
       = Returned (Int 2) (sample_world ∅ []))
  ∧ (∃ s' s'',
       MysqlStore_Set go_hashable go_self_equal go_type_name
         sample_go_store Float_NaN (Int 4) (sample_world ∅ [])
       = Returned (s', None) (sample_world ∅ [])
       ∧ MysqlStore_Set go_hashable go_self_equal go_type_name
           s' Float_NaN (Int 5) (sample_world ∅ [])
         = Returned (s'', None) (sample_world ∅ [])
       ∧ s_data s'' = Map {[ Int 1 := Int 2 ]}
                          [(Float_NaN, Int 4); (Float_NaN, Int 5)]).
Proof.
  split.
  - destruct (Set_changes_one_key Nil go_hashable go_self_equal go_type_name
                sample_go_store (Int 3) (Int 4) (sample_world ∅ [])
                {[ Int 1 := Int 2 ]} [])
      as (s' & Hrun & Hother & _); [reflexivity | reflexivity |].
    exists s'. split; [exact Hrun|].
    rewrite Hother; [reflexivity | discriminate].
  - destruct (Set_changes_one_key Nil go_hashable go_self_equal go_type_name
                sample_go_store Float_NaN (Int 4) (sample_world ∅ [])
                {[ Int 1 := Int 2 ]} [])
      as (s' & Hrun & _ & _ & _ & _ & Hagain); [reflexivity | reflexivity |].
    destruct (Hagain (Int 5)) as (s'' & s2 & Hrun2 & _ & _ & Hnan).
    exists s', s''. split; [exact Hrun|]. split; [exact Hrun2|].
    exact (Hnan eq_refl).
Defined.

Lemma Delete_after_Set_witness :
  ∃ s1 s2,
    MysqlStore_Set go_hashable go_self_equal go_type_name
      sample_go_store (Int 3) (Int 4) (sample_world ∅ [])
    = Returned (s1, None) (sample_world ∅ [])
    ∧ MysqlStore_Delete go_hashable go_self_equal go_type_name
        s1 (Int 3) (sample_world ∅ [])
      = Returned (s2, None) (sample_world ∅ [])
    ∧ s_data s2 = Map {[ Int 1 := Int 2 ]} [].
Proof.
  destruct (Delete_after_Set Nil go_hashable go_self_equal go_type_name
              sample_go_store (Int 3) (Int 4) (sample_world ∅ [])
              {[ Int 1 := Int 2 ]} [])
    as (s1 & s2 & Hrun1 & Hrun2 & _ & _ & Hback & _);
    [reflexivity | reflexivity |].
  exists s1, s2. split; [exact Hrun1|]. split; [exact Hrun2|].
  apply Hback; [reflexivity | vm_compute; reflexivity].
Defined.

Lemma Flush_empties_the_session_witness :
  ∃ s' w',
    MysqlStore_Release sample_EncodeGob
      (MysqlStore_Flush (sample_store {[ 1%nat := 2%nat ]} 990 false)).1
      (sample_world {[ "s1" := mkRow ["001"%byte; "002"%byte] 990 ]} [])
    = Returned (s', None) w'
    ∧ table w' !! "s1" = Some (mkRow [] 1000).
Proof.
  destruct (Flush_empties_the_session 0%nat sample_hashable sample_self_equal
              sample_type_name sample_EncodeGob
              (sample_store {[ 1%nat := 2%nat ]} 990 false))
    as (_ & _ & _ & _ & _ & _ & _ & Hrelease).
  destruct (Hrelease
              (sample_world {[ "s1" := mkRow ["001"%byte; "002"%byte] 990 ]} [])
              session_db [] (mkRow ["001"%byte; "002"%byte] 990))
    as (s' & w' & Hrun & Hrow & _);
    [reflexivity | vm_compute; reflexivity | reflexivity
     | vm_compute; reflexivity |].
  exists s', w'. split; [exact Hrun | exact Hrow].
Defined.

(** The update is refused, and the release that follows a second later
    does not try again. *)
Lemma Release_twice_second_is_skipped_witness :
  ∃ s1 w1 w2,
    MysqlStore_Release sample_EncodeGob
      (sample_store {[ 1%nat := 2%nat ]} 990 true)
      (sample_world {[ "s1" := mkRow [] 990 ]} [Some "bad connection"])
    = Returned (s1, Some (DriverError "bad connection")) w1
    ∧ MysqlStore_Release sample_EncodeGob s1 w1 = Returned (s1, None) w2
    ∧ table w2 = table w1.
Proof.
  destruct (Release_twice_second_is_skipped sample_EncodeGob
              (sample_store {[ 1%nat := 2%nat ]} 990 true)
              (sample_world {[ "s1" := mkRow [] 990 ]} [Some "bad connection"])
              session_db ["001"%byte; "002"%byte])
    as (s1 & err1 & w1 & Hrun & Herr & w2 & Hagain & _ & Htable);
    [left; reflexivity | reflexivity | vm_compute; reflexivity
     | by vm_compute |].
  exists s1, w1, w2. rewrite Herr in Hrun.
  split; [exact Hrun|]. split; [exact Hagain | exact Htable].
Defined.

Lemma Release_without_row_writes_nothing_witness :
  ∃ s' w',
    MysqlStore_Release sample_EncodeGob
      (sample_store {[ 1%nat := 2%nat ]} 990 true) (sample_world ∅ [])
    = Returned (s', None) w'
    ∧ table w' = ∅.
Proof.
  destruct (Release_without_row_writes_nothing sample_EncodeGob
              (sample_store {[ 1%nat := 2%nat ]} 990 true) (sample_world ∅ [])
              session_db ["001"%byte; "002"%byte])
    as (s' & w' & Hrun & Htable & _);
    [left; reflexivity | reflexivity | vm_compute; reflexivity
     | reflexivity | vm_compute; reflexivity |].
  exists s', w'. split; [exact Hrun | exact Htable].
Defined.

Lemma Release_last_write_wins_witness :
  ∃ s1' w1 s2' w2,
    MysqlStore_Release sample_EncodeGob
      (sample_store {[ 1%nat := 2%nat ]} 990 true)
      (sample_world {[ "s1" := mkRow [] 990 ]} [])
    = Returned (s1', None) w1
    ∧ MysqlStore_Release sample_EncodeGob
        (sample_store {[ 3%nat := 4%nat ]} 990 true) w1
      = Returned (s2', None) w2
    ∧ table w2 !! "s1" = Some (mkRow ["003"%byte; "004"%byte] (now w1)).
Proof.
  destruct (Release_last_write_wins sample_EncodeGob
              (sample_store {[ 1%nat := 2%nat ]} 990 true)
              (sample_store {[ 3%nat := 4%nat ]} 990 true)
              (sample_world {[ "s1" := mkRow [] 990 ]} [])
              session_db session_db
              ["001"%byte; "002"%byte] ["003"%byte; "004"%byte]
              (mkRow [] 990))
    as (s1' & w1 & s2' & w2 & Hrun1 & Hrun2 & _ & Hrow & _);
    [reflexivity | reflexivity | reflexivity | reflexivity | reflexivity
     | vm_compute; reflexivity | vm_compute; reflexivity
     | reflexivity | reflexivity | vm_compute; reflexivity |].
  exists s1', w1, s2', w2.
  split; [exact Hrun1|]. split; [exact Hrun2 | exact Hrow].
Defined.

(** A write-back next to another session's row, and a write-back of a
    session that holds a nil value, on which the encoder panics. *)
Lemma Release_touches_own_row_only_witness :
  (∃ s' err w',
     MysqlStore_Release sample_EncodeGob
       (sample_store {[ 1%nat := 2%nat ]} 990 true)
       (sample_world {[ "s1" := mkRow [] 990; "s2" := mkRow [] 980 ]} [])
     = Returned (s', err) w'
     ∧ table w' !! "s2" = Some (mkRow [] 980))
  ∧ (∃ w',
       MysqlStore_Release sample_EncodeGob
         (sample_store {[ 1%nat := 0%nat ]} 990 true)
         (sample_world {[ "s1" := mkRow [] 990 ]} [])
       = Panicked nil_dereference w'
       ∧ trace w' = []).
Proof.
  split.
  - destruct (Release_touches_own_row_only sample_EncodeGob
                (sample_store {[ 1%nat := 2%nat ]} 990 true)
                (sample_world
                   {[ "s1" := mkRow [] 990; "s2" := mkRow [] 980 ]} [])
                session_db)
      as [(s' & err & w' & Hrun & _ & _ & _ & Hothers)
         | (msg & w' & Hpanic & _)]; [reflexivity | | ].
    + exists s', err, w'. split; [exact Hrun|].
      rewrite Hothers; [vm_compute; reflexivity | discriminate].
    + exfalso. vm_compute in Hpanic. discriminate Hpanic.
  - destruct (Release_touches_own_row_only sample_EncodeGob
                (sample_store {[ 1%nat := 0%nat ]} 990 true)
                (sample_world {[ "s1" := mkRow [] 990 ]} [])
                session_db)
      as [(s' & err & w' & Hrun & _)
         | (msg & w' & Hpanic & Hrun & _ & Htrace)]; [reflexivity | | ].
    + exfalso. vm_compute in Hrun. discriminate Hrun.
    + exists w'. vm_compute in Hpanic. injection Hpanic as <-.
      split; [exact Hrun | exact Htrace].
Defined.

(** A clean store whose expiry is the largest int64. *)
Lemma Release_expiry_overflow_is_written_witness :
  ∃ s' err w',
    MysqlStore_Release sample_EncodeGob
      (sample_store {[ 1%nat := 2%nat ]} 9223372036854775807 false)
      (sample_world ∅ [])
    = Returned (s', err) w'
    ∧ trace w' = [UPDATE_data_expiry ["001"%byte; "002"%byte] 1000 "s1"].
Proof.
  destruct (Release_expiry_overflow_is_written sample_EncodeGob
              (sample_store {[ 1%nat := 2%nat ]} 9223372036854775807 false)
              (sample_world ∅ []) session_db ["001"%byte; "002"%byte])
    as (_ & Hrun);
    [by vm_compute | by vm_compute | by vm_compute | reflexivity
     | vm_compute; reflexivity |].
  exact Hrun.
Defined.

Lemma provider_without_handle_panics_witness :
  MysqlProvider_Count (mkProvider None 0) (sample_world ∅ [])
  = Panicked nil_dereference (sample_world ∅ []).
Proof.
  destruct (provider_without_handle_panics sample_DecodeGob
              (mkProvider None 0) "s1" "s0" (sample_world ∅ []))
    as (_ & _ & _ & _ & Hcount & _); [reflexivity|].
  exact Hcount.
Defined.

Lemma Destory_removes_the_row_witness :
  ∃ w',
    MysqlProvider_Destory sample_provider "a"
      (sample_world {[ "a" := mkRow [] 1000; "b" := mkRow [] 4900 ]} [])
    = Returned None w'
    ∧ table w' !! "a" = None
    ∧ table w' !! "b" = Some (mkRow [] 4900).
Proof.
  destruct (Destory_removes_the_row sample_provider session_db "a"
              (sample_world {[ "a" := mkRow [] 1000; "b" := mkRow [] 4900 ]} []))
    as (err & w' & Hrun & _ & Hok & _); [reflexivity|].
  destruct Hok as (Herr & Hgone & Hothers & _); [reflexivity|].
  exists w'. rewrite Herr in Hrun. split; [exact Hrun|].
  split; [exact Hgone|].
  rewrite Hothers; [vm_compute; reflexivity | discriminate].
Defined.

Lemma Destory_then_Read_starts_anew_witness :
  ∃ w1 s w2,
    MysqlProvider_Destory sample_provider "s1"
      (sample_world {[ "s1" := mkRow ["001"%byte; "002"%byte] 990 ]} [])
    = Returned None w1
    ∧ MysqlProvider_Read sample_DecodeGob sample_provider "s1" w1
      = Returned (Some s, None) w2
    ∧ s_data s = ∅ ∧ s_expiry s = 1000.
Proof.
  destruct (Destory_then_Read_starts_anew sample_DecodeGob sample_provider
              session_db "s1"
              (sample_world {[ "s1" := mkRow ["001"%byte; "002"%byte] 990 ]} []))
    as (w1 & s & w2 & Hrun1 & Hrun2 & Hdata & Hexp & _);
    [reflexivity | reflexivity | reflexivity | reflexivity |].
  exists w1, s, w2. repeat split;
    [exact Hrun1 | exact Hrun2 | exact Hdata | exact Hexp].
Defined.

Lemma Read_loads_the_row_witness :
  ∃ w',
    MysqlProvider_Read sample_DecodeGob sample_provider "s1"
      (sample_world {[ "s1" := mkRow ["001"%byte; "002"%byte] 990 ]} [])
    = Returned (Some (sample_store {[ 1%nat := 2%nat ]} 990 false), None) w'.
Proof.
  destruct (Read_loads_the_row sample_DecodeGob sample_provider session_db
              "s1"
              (sample_world {[ "s1" := mkRow ["001"%byte; "002"%byte] 990 ]} [])
              (mkRow ["001"%byte; "002"%byte] 990))
    as (_ & Hdecoded);
    [reflexivity | vm_compute; reflexivity | reflexivity |].
  destruct (Hdecoded (Map {[ 1%nat := 2%nat ]} []))
    as (w' & Hrun & _); [discriminate | vm_compute; reflexivity |].
  exists w'. exact Hrun.
Defined.

Lemma Read_store_or_error_witness :
  ∃ res w',
    MysqlProvider_Read sample_DecodeGob sample_provider "s1"
      (sample_world {[ "s2" := mkRow [] 980 ]} [None; Some "bad connection"])
    = Returned res w'
    ∧ table w' !! "s2" = Some (mkRow [] 980).
Proof.
  destruct (Read_store_or_error sample_DecodeGob sample_provider session_db
              "s1"
              (sample_world {[ "s2" := mkRow [] 980 ]}
                            [None; Some "bad connection"]))
    as (res & w' & Hrun & _ & Hothers & _); [reflexivity|].
  exists res, w'. split; [exact Hrun|].
  rewrite Hothers; [vm_compute; reflexivity | discriminate].
Defined.

Lemma Read_twice_same_session_witness :
  ∃ s w1 w2,
    MysqlProvider_Read sample_DecodeGob sample_provider "s1"
      (sample_world ∅ [])
    = Returned (Some s, None) w1
    ∧ MysqlProvider_Read sample_DecodeGob sample_provider "s1" w1
      = Returned (Some s, None) w2
    ∧ s_expiry s = 1000.
Proof.
  destruct (Read_twice_same_session sample_DecodeGob sample_provider
              session_db "s1" (sample_world ∅ []))
    as (s & w1 & w2 & Hrun1 & Hrun2 & _ & Hexp & _);
    [reflexivity | vm_compute; reflexivity | reflexivity | reflexivity
     | reflexivity |].
  exists s, w1, w2. repeat split; [exact Hrun1 | exact Hrun2 | exact Hexp].
Defined.

Lemma Release_then_Read_round_trip_witness :
  ∃ s1 w1 s2 w2,
    MysqlStore_Release sample_EncodeGob
      (sample_store {[ 1%nat := 2%nat ]} 990 true)
      (sample_world {[ "s1" := mkRow [] 990 ]} [])
    = Returned (s1, None) w1
    ∧ MysqlProvider_Read sample_DecodeGob sample_provider "s1" w1
      = Returned (Some s2, None) w2
    ∧ s_data s2 = Map {[ 1%nat := 2%nat ]} []
    ∧ s_expiry s2 = 1000.
Proof.
  destruct (Release_then_Read_round_trip sample_EncodeGob sample_DecodeGob
              (sample_store {[ 1%nat := 2%nat ]} 990 true) sample_provider
              (sample_world {[ "s1" := mkRow [] 990 ]} [])
              session_db session_db ["001"%byte; "002"%byte] (mkRow [] 990))
    as (s1 & w1 & s2 & w2 & Hrun1 & Hrun2 & Hdata & Hexp & _);
    [left; reflexivity | reflexivity | reflexivity | vm_compute; reflexivity
     | vm_compute; reflexivity | discriminate | vm_compute; reflexivity
     | reflexivity | reflexivity |].
  exists s1, w1, s2, w2. repeat split;
    [exact Hrun1 | exact Hrun2 | exact Hdata | exact Hexp].
Defined.

Lemma Count_follows_Read_and_Destory_witness :
  (∃ res w1 w2,
     MysqlProvider_Read sample_DecodeGob sample_provider "s1"
       (sample_world {[ "a" := mkRow [] 1000 ]} [])
     = Returned res w1
     ∧ MysqlProvider_Count sample_provider w1 = Returned 2 w2)
  ∧ (∃ w1 w2,
       MysqlProvider_Destory sample_provider "a"
         (sample_world {[ "a" := mkRow [] 1000 ]} [])
       = Returned None w1
       ∧ MysqlProvider_Count sample_provider w1 = Returned 0 w2).
Proof.
  destruct (Count_follows_Read_and_Destory sample_DecodeGob sample_provider
              session_db "s1" (sample_world {[ "a" := mkRow [] 1000 ]} []))
    as (Hnew & _ & _); [reflexivity|].
  destruct (Count_follows_Read_and_Destory sample_DecodeGob sample_provider
              session_db "a" (sample_world {[ "a" := mkRow [] 1000 ]} []))
    as (_ & _ & Hgone); [reflexivity|].
  split.
  - destruct Hnew as (res & w1 & w2 & Hrun & Hcount);
      [vm_compute; reflexivity | reflexivity | reflexivity | reflexivity |].
    exists res, w1, w2. split; [exact Hrun | exact Hcount].
  - destruct Hgone as (w1 & w2 & Hrun & Hcount);
      [exists (mkRow [] 1000); vm_compute; reflexivity
      | reflexivity | reflexivity |].
    exists w1, w2. split; [exact Hrun | exact Hcount].
Defined.

Lemma Regenerate_keeps_the_session_witness :
  ∃ w',
    MysqlProvider_Regenerate sample_DecodeGob sample_provider "old" "new"
      (sample_world {[ "old" := mkRow ["001"%byte; "002"%byte] 990 ]} [])
    = Returned (Some (mkStore (Some session_db) "new"
                              (Map {[ 1%nat := 2%nat ]} []) 990 false),
                None) w'
    ∧ table w' !! "new" = Some (mkRow ["001"%byte; "002"%byte] 990)
    ∧ table w' !! "old" = None.
Proof.
  destruct (Regenerate_keeps_the_session sample_DecodeGob sample_provider
              session_db "old" "new"
              (sample_world {[ "old" := mkRow ["001"%byte; "002"%byte] 990 ]} [])
              (mkRow ["001"%byte; "002"%byte] 990)
              (Map {[ 1%nat := 2%nat ]} []))
    as (w' & Hrun & Hnew & Hold & _);
    [reflexivity | vm_compute; reflexivity | vm_compute; reflexivity
     | reflexivity | reflexivity | reflexivity | reflexivity
     | right; split; [discriminate | vm_compute; reflexivity] |].
  exists w'. repeat split; [exact Hrun | exact Hnew | exact Hold].
Defined.

Lemma Regenerate_there_and_back_witness :
  ∃ res1 w1 res2 w2,
    MysqlProvider_Regenerate sample_DecodeGob sample_provider "old" "new"
      (sample_world {[ "old" := mkRow ["001"%byte; "002"%byte] 990 ]} [])
    = Returned res1 w1
    ∧ MysqlProvider_Regenerate sample_DecodeGob sample_provider "new" "old" w1
      = Returned res2 w2
    ∧ table w2 = {[ "old" := mkRow ["001"%byte; "002"%byte] 990 ]}.
Proof.
  destruct (Regenerate_there_and_back sample_DecodeGob sample_provider
              session_db "old" "new"
              (sample_world {[ "old" := mkRow ["001"%byte; "002"%byte] 990 ]} [])
              (mkRow ["001"%byte; "002"%byte] 990))
    as (res1 & w1 & res2 & w2 & Hrun1 & Hrun2 & _ & _ & _ & Htable);
    [reflexivity | vm_compute; reflexivity | vm_compute; reflexivity
     | intros i _; by destruct i |].
  exists res1, w1, res2, w2.
  split; [exact Hrun1|]. split; [exact Hrun2 | exact Htable].
Defined.

Lemma Regenerate_store_or_error_witness :
  ∃ res w',
    MysqlProvider_Regenerate sample_DecodeGob sample_provider "old" "new"
      (sample_world {[ "other" := mkRow [] 980 ]}
                    [None; None; Some "bad connection"])
    = Returned res w'
    ∧ table w' !! "other" = Some (mkRow [] 980).
Proof.
  destruct (Regenerate_store_or_error sample_DecodeGob sample_provider
              session_db "old" "new"
              (sample_world {[ "other" := mkRow [] 980 ]}
                            [None; None; Some "bad connection"]))
    as (res & w' & Hrun & _ & Hothers); [reflexivity|].
  exists res, w'. split; [exact Hrun|].
  rewrite Hothers; [vm_compute; reflexivity | discriminate | discriminate].
Defined.

(** Written back at 1000 with a lifetime of 3600: the server clock at 5000
    is past the lease and the row goes. *)
Lemma GC_after_Release_witness :
  ∃ s1 w1 w2,
    MysqlStore_Release sample_EncodeGob
      (sample_store {[ 1%nat := 2%nat ]} 990 true)
      (sample_world {[ "s1" := mkRow [] 990 ]} [])
    = Returned (s1, None) w1
    ∧ MysqlProvider_GC sample_provider w1 = Returned tt w2
    ∧ table w2 !! "s1" = None.
Proof.
  destruct (GC_after_Release sample_EncodeGob
              (sample_store {[ 1%nat := 2%nat ]} 990 true) sample_provider
              (sample_world {[ "s1" := mkRow [] 990 ]} [])
              session_db session_db ["001"%byte; "002"%byte] (mkRow [] 990))
    as (s1 & w1 & w2 & Hrun1 & Hrun2 & _ & Hdead);
    [left; reflexivity | reflexivity | reflexivity | vm_compute; reflexivity
     | vm_compute; reflexivity | reflexivity | reflexivity |].
  exists s1, w1, w2. split; [exact Hrun1|]. split; [exact Hrun2|].
  apply Hdead. by vm_compute.
Defined.

Lemma GC_keeps_live_rows_witness :
  ∃ w',
    MysqlProvider_GC sample_provider
      (sample_world {[ "a" := mkRow [] 1000; "b" := mkRow [] 4900 ]}
                    [Some "bad connection"])
    = Returned tt w'
    ∧ table w' !! "b" = Some (mkRow [] 4900).
Proof.
  destruct (GC_keeps_live_rows sample_provider session_db
              (sample_world {[ "a" := mkRow [] 1000; "b" := mkRow [] 4900 ]}
                            [Some "bad connection"]))
    as (w' & Hrun & _ & Hlive & _); [reflexivity|].
  exists w'. split; [exact Hrun|].
  apply Hlive; [vm_compute; reflexivity | by vm_compute].
Defined.

Lemma Init_configures_the_provider_witness :
  ∃ w',
    MysqlProvider_Init 14400 (mkProvider None 0) 3600
      "user:pw@tcp(db)/grafana" (sample_world ∅ [])
    = Returned (sample_provider, None) w'
    ∧ connMaxLifetime w' = 14400000000000.
Proof.
  destruct (Init_configures_the_provider 14400 (mkProvider None 0) 3600
              "user:pw@tcp(db)/grafana" (sample_world ∅ []) session_db)
    as (err & w' & Hrun & Herr & Hlife & _); [reflexivity|].
  exists w'. rewrite Herr in Hrun. split; [exact Hrun | exact Hlife].
Defined.
